(** * Physics-Simulation: Newton's Third Law demonstrations

    A shallow embedding of the formula library
    ([physics-simulations.ts]) and of the two scenario controllers
    ([NewtonsThirdLawSimulation.tsx], [GravitySimulation.tsx]).

    Modelling conventions.
    - A JavaScript [number] is read in two ways.  The controllers and
      the formulas are embedded over the real numbers ([Math.abs],
      [Math.min], [Math.max], [Math.sqrt], [Math.cos], [Math.sin] are
      [Rabs], [Rmin], [Rmax], [sqrt], [cos], [sin], and [Math.PI] is
      [PI]); the numbered properties proved of them are stated so
      that rounding to binary64 does not disturb them: comparisons,
      clamps, bounds, non-strict monotonicity, and equations whose
      right-hand side is the code's own expression.  Module
      [Binary64] holds the same formulas over the kernel's binary64
      floats; it computes, and shows on concrete inputs where exact
      arithmetic and the code's doubles part ways (ties between
      neighbouring doubles, underflow to 0, overflow, NaN).
    - Where a claim is about an operation that would produce NaN or
      an infinity (division by zero, square root of a negative
      number) a checked reading of the same source makes the fault
      explicit as [None].
    - A mutable record held in a React ref ([physicsRef.current]) is a
      Rocq record threaded through the handlers and the per-frame
      [update].
    - The canvas is write-only: [drawScene] is modelled by the list of
      [drawArrow] calls it performs, in order. *)

From Stdlib Require Import Reals Lra Lia List Bool Arith String.
From Stdlib Require Floats.PrimFloat.
Import ListNotations.

Local Open Scope R_scope.

(** Decimal literals of the source are read as the nearest double, as
    JavaScript reads them. *)
Set Warnings "-inexact-float".

(** ** physics-simulations.ts *)

Record Vector2D : Type := mkVector2D { vx : R; vy : R }.

Module Vector.

Definition normalize (v : Vector2D) : Vector2D :=
  let length := sqrt (vx v * vx v + vy v * vy v) in
  if Req_dec_T length 0 then mkVector2D 0 0
  else mkVector2D (vx v / length) (vy v / length).

Definition scale (v : Vector2D) (scalar : R) : Vector2D :=
  mkVector2D (vx v * scalar) (vy v * scalar).

Definition invert (v : Vector2D) : Vector2D :=
  mkVector2D (- vx v) (- vy v).

Definition magnitude (v : Vector2D) : R :=
  sqrt (vx v * vx v + vy v * vy v).

End Vector.

Module HammerNail.

(** [Math.abs(mass * velocity)] *)
Definition calculateImpulse (mass velocity : R) : R :=
  Rabs (mass * velocity).

(** [Math.min(impulse * 0.8, 60)] *)
Definition calculatePenetrationDepth (impulse : R) : R :=
  Rmin (impulse * 0.8) 60.

(** [Math.max(Math.min(impulse * 1.5, 150), 50)] *)
Definition calculateForceMagnitude (impulse : R) : R :=
  Rmax (Rmin (impulse * 1.5) 150) 50.

End HammerNail.

Module Gravity.

Definition calculateForceMagnitude (G mass1 mass2 distance : R) : R :=
  if Rle_dec distance 0 then 0
  else (G * mass1 * mass2) / (distance * distance).

(** Default arguments [scale = 120], [min = 20], [max = 180]. *)
Definition forceToArrowLength_with (force scale min max : R) : R :=
  Rmin (Rmax (sqrt force * scale) min) max.

Definition forceToArrowLength (force : R) : R :=
  forceToArrowLength_with force 120 20 180.

End Gravity.

(** ** Checked arithmetic

    The two partial operations of the formula library, with the inputs
    on which JavaScript answers NaN or an infinity reported as [None]. *)

Module Checked.

Definition div (a b : R) : option R :=
  if Req_dec_T b 0 then None else Some (a / b).

Definition sqrt (a : R) : option R :=
  if Rlt_dec a 0 then None else Some (R_sqrt.sqrt a).

Definition bind {A B : Type} (m : option A) (k : A -> option B) : option B :=
  match m with
  | Some a => k a
  | None => None
  end.

End Checked.

Notation "x <- m ;; k" := (Checked.bind m (fun x => k))
  (at level 61, m at next level, right associativity).

(** ** The formulas over binary64

    The same source lines with [number] read as the kernel's binary64
    float: [*], [/], [Math.sqrt], [Math.abs] and [<=] are the IEEE-754
    operations, [NaN <= 0] being false. *)

Module Binary64.

Import PrimFloat.

(** [Math.abs(mass * velocity)] *)
Definition calculateImpulse (mass velocity : float) : float :=
  abs (mass * velocity)%float.

(** [Gravity.calculateForceMagnitude] *)
Definition calculateForceMagnitude (G mass1 mass2 distance : float) : float :=
  if (distance <=? 0)%float then 0%float
  else ((G * mass1 * mass2) / (distance * distance))%float.

Definition GRAVITATIONAL_CONSTANT : float := 15000%float.

(** [calculateGravitationalForce] of the gravity component *)
Definition calculateGravitationalForce
    (earthMassVal moonMassVal distance : float) : float :=
  if (distance <=? 0)%float then 0%float
  else ((GRAVITATIONAL_CONSTANT * earthMassVal * moonMassVal)
        / (distance * distance))%float.

(** [calculateOrbitalVelocity] of the gravity component *)
Definition calculateOrbitalVelocity (earthMassVal distance : float) : float :=
  if (distance <=? 0)%float then 0%float
  else PrimFloat.sqrt ((GRAVITATIONAL_CONSTANT * earthMassVal) / distance)%float.

End Binary64.

(** Magnitudes between 1e-60 and 1e60.  For a gravitational constant,
    masses and distances of such magnitude every product and quotient
    the force and velocity formulas form lies between 1e-300 and
    1e300, inside the normal range of binary64: nothing overflows,
    underflows or becomes NaN. *)
Definition moderate (x : R) : Prop := / 10 ^ 60 <= x <= 10 ^ 60.

(** ** Canvas output

    One record per [drawArrow] call, holding the arguments of the call.
    [shaftEnd] is the end point [drawArrow] computes for the shaft. *)

Inductive LabelAlign : Type := alignLeft | alignRight.

Record ArrowCall : Type := mkArrowCall {
  arrowX : R;
  arrowY : R;
  arrowDir : Vector2D;
  arrowLength : R;
  arrowColor : string;
  arrowLabel : string;
  arrowLabelAlign : LabelAlign
}.

Definition shaftEnd (a : ArrowCall) : R * R :=
  (arrowX a + vx (arrowDir a) * arrowLength a,
   arrowY a + vy (arrowDir a) * arrowLength a).

(** ** NewtonsThirdLawSimulation.tsx *)

Module Hammer.

Inductive SimulationState : Type :=
  idle | swinging | contact | pause | resetting.

Record AnimationState : Type := mkAnimationState {
  state : SimulationState;
  hammerAngle : R;
  nailDepth : R;
  maxDepth : R;
  forceMagnitude : R
}.

Inductive MassOption : Type := massLight | massMedium | massHeavy.
Inductive SpeedOption : Type := speedSlow | speedMedium | speedFast.

Definition CANVAS_WIDTH : R := 800.
Definition CANVAS_HEIGHT : R := 600.
Definition GROUND_Y : R := 450.
Definition NAIL_X : R := 400.

Definition MASS_MAP (o : MassOption) : R :=
  match o with massLight => 1 | massMedium => 5 | massHeavy => 10 end.

Definition SPEED_MAP (o : SpeedOption) : R :=
  match o with speedSlow => 1 | speedMedium => 5 | speedFast => 10 end.

Definition SWING_SPEED_RADS (o : SpeedOption) : R :=
  match o with speedSlow => 0.05 | speedMedium => 0.1 | speedFast => 0.15 end.

Definition HAMMER_IMPACT_ANGLE : R := PI / 20.
Definition INITIAL_HAMMER_ANGLE : R := PI / 5.

(** The component: the physics ref, the [simState] mirror used by the
    markup, and the two radio selections. *)
Record Component : Type := mkComponent {
  physicsRef : AnimationState;
  simState : SimulationState;
  massOption : MassOption;
  speedOption : SpeedOption
}.

Definition initialPhysics : AnimationState :=
  mkAnimationState idle INITIAL_HAMMER_ANGLE 0 0 0.

Definition initial : Component :=
  mkComponent initialPhysics idle massMedium speedMedium.

(** [drawScene]: the arrows drawn in one frame.  [canvasReady] is
    false when the canvas or its 2d context is missing, in which case
    the routine returns before drawing anything. *)
Definition drawScene (canvasReady : bool) (phys : AnimationState)
  : list ArrowCall :=
  if negb canvasReady then []
  else
    let NAIL_INITIAL_OFFSET := 50 in
    let currentNailY := GROUND_Y - NAIL_INITIAL_OFFSET + nailDepth phys in
    match state phys with
    | pause =>
        let contactX := NAIL_X in
        let contactY := currentNailY + 5 in
        [ mkArrowCall contactX contactY (mkVector2D 0 (-1))
            (forceMagnitude phys) "#FF0000" "F_N" alignRight;
          mkArrowCall contactX contactY (mkVector2D 0 1)
            (forceMagnitude phys) "#00C853" "F_H" alignRight ]
    | _ => []
    end.

(** One pass of the state machine in [update] on the physics record.
    The second component is the argument of the [setSimState] call
    made by the pass, if any. *)
Definition step (mass : MassOption) (speedOpt : SpeedOption)
    (phys : AnimationState) : AnimationState * option SimulationState :=
  match state phys with
  | idle =>
      (mkAnimationState idle INITIAL_HAMMER_ANGLE (nailDepth phys)
         (maxDepth phys) (forceMagnitude phys), None)
  | swinging =>
      let speed := SWING_SPEED_RADS speedOpt in
      let angle := hammerAngle phys - speed in
      if Rle_dec angle HAMMER_IMPACT_ANGLE then
        let mass := MASS_MAP mass in
        let impulse := HammerNail.calculateImpulse mass speed in
        let depth := HammerNail.calculatePenetrationDepth impulse in
        (mkAnimationState contact angle (nailDepth phys)
           (maxDepth phys + depth)
           (HammerNail.calculateForceMagnitude impulse), Some contact)
      else
        (mkAnimationState swinging angle (nailDepth phys)
           (maxDepth phys) (forceMagnitude phys), None)
  | contact =>
      if Rlt_dec (nailDepth phys) (maxDepth phys) then
        (mkAnimationState contact (hammerAngle phys) (nailDepth phys + 5)
           (maxDepth phys) (forceMagnitude phys), None)
      else
        (mkAnimationState pause (hammerAngle phys) (maxDepth phys)
           (maxDepth phys) (forceMagnitude phys), Some pause)
  | pause => (phys, None)
  | resetting =>
      let angle := hammerAngle phys + 0.1 in
      let depth :=
        if Rgt_dec (nailDepth phys) 0 then nailDepth phys - 2
        else nailDepth phys in
      if Rge_dec angle INITIAL_HAMMER_ANGLE then
        (mkAnimationState idle INITIAL_HAMMER_ANGLE 0
           (maxDepth phys) (forceMagnitude phys), Some idle)
      else
        (mkAnimationState resetting angle depth
           (maxDepth phys) (forceMagnitude phys), None)
  end.

(** [update]: the state machine applied to the ref with the current
    selections, followed by the UI synchronisation. *)
Definition update (c : Component) : Component :=
  let '(phys, sync) := step (massOption c) (speedOption c) (physicsRef c) in
  mkComponent phys
    (match sync with Some s => s | None => simState c end)
    (massOption c) (speedOption c).

(** One animation frame: [update] and then the [drawScene] it calls. *)
Definition frame (canvasReady : bool) (c : Component)
  : Component * list ArrowCall :=
  let c' := update c in (c', drawScene canvasReady (physicsRef c')).

Definition handleHit (c : Component) : Component :=
  let p := physicsRef c in
  mkComponent
    (mkAnimationState swinging (hammerAngle p) (nailDepth p)
       (maxDepth p) (forceMagnitude p))
    swinging (massOption c) (speedOption c).

Definition handleReset (c : Component) : Component :=
  mkComponent (mkAnimationState idle INITIAL_HAMMER_ANGLE 0 0 0)
    idle (massOption c) (speedOption c).

(** The single action button: its caption, and whether it is
    disabled.  Its [onClick] is [handleHit] whatever the caption. *)
Definition buttonLabel (c : Component) : string :=
  match simState c with
  | idle | pause => "HIT"
  | _ => "UP"
  end.

Definition buttonDisabled (c : Component) : bool :=
  match simState c with swinging => true | _ => false end.

Definition clickActionButton (c : Component) : Component :=
  if buttonDisabled c then c else handleHit c.

(** *** The event loop

    What follows is not in the source file: it is the vocabulary the
    statements need.  [Event] lists what React can deliver to the
    mounted component, and [run] delivers a sequence of events in
    order. *)
Inductive Event : Type :=
| Frame
| ClickAction
| ClickReset
| SelectMass (m : MassOption)
| SelectSpeed (s : SpeedOption).

Definition handle (e : Event) (c : Component) : Component :=
  match e with
  | Frame => update c
  | ClickAction => clickActionButton c
  | ClickReset => handleReset c
  | SelectMass m =>
      mkComponent (physicsRef c) (simState c) m (speedOption c)
  | SelectSpeed s =>
      mkComponent (physicsRef c) (simState c) (massOption c) s
  end.

Fixpoint run (events : list Event) (c : Component) : Component :=
  match events with
  | [] => c
  | e :: rest => run rest (handle e c)
  end.

Definition isReset (e : Event) : bool :=
  match e with ClickReset => true | _ => false end.

(** The events left when every full Reset is removed. *)
Definition withoutReset (events : list Event) : list Event :=
  filter (fun e => negb (isReset e)) events.

(** Frames a swing takes from the raised position to the impact. *)
Definition framesToContact (s : SpeedOption) : nat :=
  match s with speedSlow => 10 | speedMedium => 5 | speedFast => 4 end.

(** [n] animation frames in a row. *)
Definition frames (n : nat) : list Event := repeat Frame n.

(** Select a mass and a speed, press the action button, and let [n]
    frames pass. *)
Definition hitAndWait (m : MassOption) (s : SpeedOption) (n : nat)
  : list Event :=
  SelectMass m :: SelectSpeed s :: ClickAction :: frames n.

(** What one strike adds to [maxDepth], and the arrow length it
    sets. *)
Definition strikeDepth (m : MassOption) (s : SpeedOption) : R :=
  HammerNail.calculatePenetrationDepth
    (HammerNail.calculateImpulse (MASS_MAP m) (SWING_SPEED_RADS s)).

Definition strikeForce (m : MassOption) (s : SpeedOption) : R :=
  HammerNail.calculateForceMagnitude
    (HammerNail.calculateImpulse (MASS_MAP m) (SWING_SPEED_RADS s)).

(** The angle at which the first swing after mounting stops. *)
Definition impactAngle (s : SpeedOption) : R :=
  INITIAL_HAMMER_ANGLE
  - INR (framesToContact s - 1) * SWING_SPEED_RADS s
  - SWING_SPEED_RADS s.

(** The component during the first strike after mounting: phase
    [phase], the nail at [depth]. *)
Definition firstStrike (m : MassOption) (s : SpeedOption)
    (phase : SimulationState) (depth : R) : Component :=
  mkComponent
    (mkAnimationState phase (impactAngle s) depth
       (0 + strikeDepth m s) (strikeForce m s))
    phase m s.

(** [n] further strikes: the action button and the frame in which
    the swing lands, [n] times over. *)
Fixpoint rehits (n : nat) : list Event :=
  match n with
  | O => []
  | S n' => ClickAction :: Frame :: rehits n'
  end.

(** What holds of the component whatever has happened since it was
    mounted (see [hammer_run_wellFormed]). *)
Definition wellFormed (c : Component) : Prop :=
  let p := physicsRef c in
  simState c = state p
  /\ state p <> resetting
  /\ 0 <= nailDepth p
  /\ 0 <= maxDepth p
  /\ nailDepth p < maxDepth p + 5
  /\ hammerAngle p <= INITIAL_HAMMER_ANGLE
  /\ (forceMagnitude p = 0 \/ forceMagnitude p = 50)
  /\ (state p = contact \/ state p = pause ->
      forceMagnitude p = 50
      /\ hammerAngle p <= HAMMER_IMPACT_ANGLE
      /\ 0 < maxDepth p)
  /\ (state p = pause -> nailDepth p = maxDepth p)
  /\ (state p = idle -> p = initialPhysics).

(** The phases of a swing in progress. *)
Definition inSwing (s : SimulationState) : bool :=
  match s with
  | swinging | contact | pause => true
  | idle | resetting => false
  end.

End Hammer.

(** ** GravitySimulation.tsx *)

(** [Math.atan2] on reals (signed zeros are not modelled). *)
Definition atan2 (y x : R) : R :=
  if Rlt_dec 0 x then atan (y / x)
  else if Rlt_dec x 0 then
    if Rle_dec 0 y then atan (y / x) + PI else atan (y / x) - PI
  else if Rlt_dec 0 y then PI / 2
  else if Rlt_dec y 0 then - (PI / 2)
  else 0.

Module GravitySim.

Inductive GravitySimState : Type := idle | running | paused.

Record AnimationState : Type := mkAnimationState {
  state : GravitySimState;
  moonX : R;
  moonY : R;
  moonAngle : R;
  moonDistance : R;
  moonVelocity : R;
  forceMagnitude : R;
  pathPoints : list Vector2D
}.

(** The keys ['0.5'], ['earth'], ['1.5'], ['2'] of [MASS_MAP]. *)
Inductive MassKey : Type := key05 | keyEarth | key15 | key2.

Definition CANVAS_WIDTH : R := 800.
Definition CANVAS_HEIGHT : R := 600.
Definition EARTH_X : R := 400.
Definition EARTH_Y : R := 300.
Definition MOON_RADIUS : R := 15.
Definition MIN_DISTANCE : R := 150.
Definition MAX_DISTANCE : R := 400.
Definition INITIAL_DISTANCE : R := 280.

Definition MASS_MAP (k : MassKey) : R :=
  match k with key05 => 0.5 | keyEarth => 1 | key15 => 1.5 | key2 => 2 end.

Definition GRAVITATIONAL_CONSTANT : R := 15000.

(** The literal [500] of the guard [pathPoints.length > 500]. *)
Definition PATH_CAP : nat := 500.

(** The cap of the trail.  The guard lets a trail of up to [PATH_CAP]
    points through unshortened and the push adds one point, so
    [PATH_CAP + 1] is the largest length the trail has after an
    update; a trail of that length loses its oldest point at the next
    update. *)
Definition TRAIL_CAP : nat := S PATH_CAP.

Record Component : Type := mkComponent {
  physicsRef : AnimationState;
  simState : GravitySimState;
  isDraggingRef : bool;
  earthMass : MassKey;
  moonMass : MassKey;
  showForceArrows : bool;
  showOrbitalPath : bool
}.

Definition initialPhysics : AnimationState :=
  mkAnimationState idle (EARTH_X + INITIAL_DISTANCE) EARTH_Y 0
    INITIAL_DISTANCE 0 0 [].

Definition initial : Component :=
  mkComponent initialPhysics idle false keyEarth key05 true true.

Definition calculateGravitationalForce
    (earthMassVal moonMassVal distance : R) : R :=
  if Rle_dec distance 0 then 0
  else (GRAVITATIONAL_CONSTANT * earthMassVal * moonMassVal)
       / (distance * distance).

Definition calculateOrbitalVelocity (earthMassVal distance : R) : R :=
  if Rle_dec distance 0 then 0
  else sqrt ((GRAVITATIONAL_CONSTANT * earthMassVal) / distance).

(** Checked readings of the two formulas: [None] where the
    JavaScript expression would be NaN or infinite. *)
Definition calculateGravitationalForce_checked
    (earthMassVal moonMassVal distance : R) : option R :=
  if Rle_dec distance 0 then Some 0
  else Checked.div (GRAVITATIONAL_CONSTANT * earthMassVal * moonMassVal)
         (distance * distance).

Definition calculateOrbitalVelocity_checked
    (earthMassVal distance : R) : option R :=
  if Rle_dec distance 0 then Some 0
  else q <- Checked.div (GRAVITATIONAL_CONSTANT * earthMassVal) distance ;;
       Checked.sqrt q.

(** [drawScene]: the [drawArrow] calls of one frame. *)
Definition drawScene (canvasReady : bool) (showArrows : bool)
    (phys : AnimationState) : list ArrowCall :=
  if negb canvasReady then []
  else if showArrows then
    let contactX := moonX phys in
    let contactY := moonY phys in
    let dirToEarth :=
      mkVector2D (EARTH_X - moonX phys) (EARTH_Y - moonY phys) in
    let dirMag :=
      sqrt (vx dirToEarth ^ 2 + vy dirToEarth ^ 2) in
    let dirNorm :=
      mkVector2D (vx dirToEarth / dirMag) (vy dirToEarth / dirMag) in
    let dirToMoon :=
      mkVector2D (moonX phys - EARTH_X) (moonY phys - EARTH_Y) in
    let dirMag2 :=
      sqrt (vx dirToMoon ^ 2 + vy dirToMoon ^ 2) in
    let dirNorm2 :=
      mkVector2D (vx dirToMoon / dirMag2) (vy dirToMoon / dirMag2) in
    [ mkArrowCall contactX contactY dirNorm
        (forceMagnitude phys) "#FF6B6B" "F_E" alignRight;
      mkArrowCall EARTH_X EARTH_Y dirNorm2
        (forceMagnitude phys) "#4ECDC4" "F_M" alignLeft ]
  else [].

(** The trail bookkeeping at the end of a running update:
    [if (length > 500) shift(); push(p)]. *)
Definition recordPath (points : list Vector2D) (p : Vector2D)
  : list Vector2D :=
  (if (PATH_CAP <? List.length points)%nat then tl points else points) ++ [p].

Definition updatePhysics (earth moon : MassKey) (phys : AnimationState)
  : AnimationState :=
  match state phys with
  | running =>
      let earthMassVal := MASS_MAP earth in
      let moonMassVal := MASS_MAP moon in
      let force :=
        calculateGravitationalForce earthMassVal moonMassVal
          (moonDistance phys) in
      let orbitalSpeed :=
        calculateOrbitalVelocity earthMassVal (moonDistance phys) in
      let velocity := orbitalSpeed * 0.1 in
      let angle := moonAngle phys + velocity / moonDistance phys in
      let x := EARTH_X + moonDistance phys * cos angle in
      let y := EARTH_Y + moonDistance phys * sin angle in
      mkAnimationState running x y angle (moonDistance phys) velocity force
        (recordPath (pathPoints phys) (mkVector2D x y))
  | _ => phys
  end.

Definition withPhysics (c : Component) (phys : AnimationState) : Component :=
  mkComponent phys (simState c) (isDraggingRef c) (earthMass c)
    (moonMass c) (showForceArrows c) (showOrbitalPath c).

Definition update (c : Component) : Component :=
  withPhysics c (updatePhysics (earthMass c) (moonMass c) (physicsRef c)).

Definition frame (canvasReady : bool) (c : Component)
  : Component * list ArrowCall :=
  let c' := update c in
  (c', drawScene canvasReady (showForceArrows c') (physicsRef c')).

(** Pointer events carry the client coordinates; [DOMRect] is what
    [getBoundingClientRect] answers for the canvas. *)
Record MouseEvent : Type := mkMouseEvent { clientX : R; clientY : R }.
Record DOMRect : Type := mkDOMRect {
  rectLeft : R; rectTop : R; rectWidth : R; rectHeight : R
}.

Definition canvasPoint (rect : DOMRect) (e : MouseEvent) : R * R :=
  ((clientX e - rectLeft rect) * (CANVAS_WIDTH / rectWidth rect),
   (clientY e - rectTop rect) * (CANVAS_HEIGHT / rectHeight rect)).

(** The distance of the pointer from the Earth's centre, before it
    is constrained. *)
Definition rawDistance (rect : DOMRect) (e : MouseEvent) : R :=
  let '(x, y) := canvasPoint rect e in
  let dx := x - EARTH_X in
  let dy := y - EARTH_Y in
  sqrt (dx * dx + dy * dy).

(** [canvas] is [None] when [canvasRef.current] is null. *)
Definition handleCanvasMouseDown (canvas : option DOMRect) (e : MouseEvent)
    (c : Component) : Component :=
  match canvas with
  | None => c
  | Some rect =>
      let '(x, y) := canvasPoint rect e in
      let phys := physicsRef c in
      let distToMoon :=
        sqrt ((x - moonX phys) ^ 2 + (y - moonY phys) ^ 2) in
      if Rlt_dec distToMoon (MOON_RADIUS + 10) then
        mkComponent phys (simState c) true (earthMass c) (moonMass c)
          (showForceArrows c) (showOrbitalPath c)
      else c
  end.

Definition handleCanvasMouseMove (canvas : option DOMRect) (e : MouseEvent)
    (c : Component) : Component :=
  if negb (isDraggingRef c) then c
  else
    match canvas with
    | None => c
    | Some rect =>
        let '(x, y) := canvasPoint rect e in
        let phys := physicsRef c in
        let dx := x - EARTH_X in
        let dy := y - EARTH_Y in
        let distance := sqrt (dx * dx + dy * dy) in
        let distance := Rmax MIN_DISTANCE (Rmin MAX_DISTANCE distance) in
        let angle := atan2 dy dx in
        withPhysics c
          (mkAnimationState (state phys)
             (EARTH_X + distance * cos angle)
             (EARTH_Y + distance * sin angle)
             angle distance (moonVelocity phys) (forceMagnitude phys)
             (pathPoints phys))
    end.

Definition handleCanvasMouseUp (c : Component) : Component :=
  mkComponent (physicsRef c) (simState c) false (earthMass c) (moonMass c)
    (showForceArrows c) (showOrbitalPath c).

Definition setPhase (s : GravitySimState) (c : Component) : Component :=
  let p := physicsRef c in
  mkComponent
    (mkAnimationState s (moonX p) (moonY p) (moonAngle p) (moonDistance p)
       (moonVelocity p) (forceMagnitude p) (pathPoints p))
    s (isDraggingRef c) (earthMass c) (moonMass c)
    (showForceArrows c) (showOrbitalPath c).

Definition handlePlay (c : Component) : Component := setPhase running c.
Definition handlePause (c : Component) : Component := setPhase paused c.

Definition handleReset (c : Component) : Component :=
  mkComponent initialPhysics idle (isDraggingRef c) (earthMass c)
    (moonMass c) (showForceArrows c) (showOrbitalPath c).

(** The two sliders.  [sliderValue] is the [value] prop,
    [parseFloat(key === 'earth' ? '1' : key)]; [sliderKey] is the key
    the [onChange] handler stores for a slider value. *)
Definition sliderValue (k : MassKey) : R :=
  match k with key05 => 0.5 | keyEarth => 1 | key15 => 1.5 | key2 => 2 end.

Definition sliderKey (val : R) : MassKey :=
  if Req_dec_T val 1 then keyEarth
  else if Req_dec_T val 0.5 then key05
  else if Req_dec_T val 1.5 then key15
  else key2.

Definition setEarthMass (k : MassKey) (c : Component) : Component :=
  mkComponent (physicsRef c) (simState c) (isDraggingRef c) k (moonMass c)
    (showForceArrows c) (showOrbitalPath c).

Definition setMoonMass (k : MassKey) (c : Component) : Component :=
  mkComponent (physicsRef c) (simState c) (isDraggingRef c) (earthMass c) k
    (showForceArrows c) (showOrbitalPath c).

Definition setShowForceArrows (b : bool) (c : Component) : Component :=
  mkComponent (physicsRef c) (simState c) (isDraggingRef c) (earthMass c)
    (moonMass c) b (showOrbitalPath c).

Definition setShowOrbitalPath (b : bool) (c : Component) : Component :=
  mkComponent (physicsRef c) (simState c) (isDraggingRef c) (earthMass c)
    (moonMass c) (showForceArrows c) b.

(** The PLAY button is disabled while [simState] is ['running'], the
    pause button unless it is. *)
Definition clickPlay (c : Component) : Component :=
  match simState c with running => c | _ => handlePlay c end.

Definition clickPause (c : Component) : Component :=
  match simState c with running => handlePause c | _ => c end.

(** *** Vocabulary for the statements (not in the source) *)

(** What React can deliver to the mounted component.  [MouseUp]
    stands for both [onMouseUp] and [onMouseLeave]. *)
Inductive Event : Type :=
| Frame
| ClickPlay
| ClickPause
| ClickReset
| MouseDown (canvas : option DOMRect) (e : MouseEvent)
| MouseMove (canvas : option DOMRect) (e : MouseEvent)
| MouseUp
| SlideEarthMass (val : R)
| SlideMoonMass (val : R)
| CheckForceArrows (b : bool)
| CheckOrbitalPath (b : bool).

Definition handle (ev : Event) (c : Component) : Component :=
  match ev with
  | Frame => update c
  | ClickPlay => clickPlay c
  | ClickPause => clickPause c
  | ClickReset => handleReset c
  | MouseDown canvas e => handleCanvasMouseDown canvas e c
  | MouseMove canvas e => handleCanvasMouseMove canvas e c
  | MouseUp => handleCanvasMouseUp c
  | SlideEarthMass val => setEarthMass (sliderKey val) c
  | SlideMoonMass val => setMoonMass (sliderKey val) c
  | CheckForceArrows b => setShowForceArrows b c
  | CheckOrbitalPath b => setShowOrbitalPath b c
  end.

Fixpoint run (events : list Event) (c : Component) : Component :=
  match events with
  | [] => c
  | ev :: rest => run rest (handle ev c)
  end.

(** What holds of the component whatever has happened since it was
    mounted (see [gravity_run_wellFormed]). *)
Definition wellFormed (c : Component) : Prop :=
  let p := physicsRef c in
  simState c = state p
  /\ MIN_DISTANCE <= moonDistance p <= MAX_DISTANCE
  /\ (List.length (pathPoints p) <= S PATH_CAP)%nat
  /\ 0 <= forceMagnitude p <= 8 / 3
  /\ 0 <= moonVelocity p.

(** The angle by which one running update advances the moon at
    distance [d] around a planet of mass key [earth]. *)
Definition angularStep (earth : MassKey) (d : R) : R :=
  calculateOrbitalVelocity (MASS_MAP earth) d * 0.1 / d.

(** [n] consecutive update steps. *)
Definition updates (n : nat) (c : Component) : Component :=
  Nat.iter n update c.

Definition moonPosition (c : Component) : Vector2D :=
  mkVector2D (moonX (physicsRef c)) (moonY (physicsRef c)).

(** The moon positions produced by update steps [1 .. n], oldest
    first. *)
Definition positions (n : nat) (c : Component) : list Vector2D :=
  map (fun k => moonPosition (updates k c)) (seq 1 n).

(** The last [k] elements of a list, in their order. *)
Definition lastn {A : Type} (k : nat) (l : list A) : list A :=
  skipn (List.length l - k) l.

End GravitySim.

(** * Properties *)

(** Case analysis on the comparisons the code performs, innermost
    comparison first. *)
Ltac plain t :=
  lazymatch t with
  | context [if _ then _ else _] => fail
  | _ => idtac
  end.

Ltac split_cmp :=
  repeat match goal with
  | |- context [Rle_dec ?a ?b] => plain a; plain b; destruct (Rle_dec a b)
  | |- context [Rlt_dec ?a ?b] => plain a; plain b; destruct (Rlt_dec a b)
  | |- context [Rgt_dec ?a ?b] => plain a; plain b; destruct (Rgt_dec a b)
  | |- context [Rge_dec ?a ?b] => plain a; plain b; destruct (Rge_dec a b)
  | |- context [Req_dec_T ?a ?b] => plain a; plain b; destruct (Req_dec_T a b)
  end.

Ltac min_max :=
  unfold Rmin, Rmax; split_cmp; try lra.

(** ** The formula library *)

Section Formulas.

Import HammerNail.

Lemma calculateImpulse_pos (m v : R) :
  0 < m -> 0 < v -> calculateImpulse m v = m * v.
Proof.
  intros Hm Hv. unfold calculateImpulse.
  apply Rabs_pos_eq. apply Rlt_le, Rmult_lt_0_compat; assumption.
Qed.

Lemma calculateImpulse_nonneg (m v : R) : 0 <= calculateImpulse m v.
Proof. apply Rabs_pos. Qed.

Lemma calculatePenetrationDepth_mono (i j : R) :
  i <= j -> calculatePenetrationDepth i <= calculatePenetrationDepth j.
Proof. intros H. unfold calculatePenetrationDepth. min_max. Qed.

Lemma calculatePenetrationDepth_cap (i : R) :
  calculatePenetrationDepth i <= 60.
Proof. unfold calculatePenetrationDepth. apply Rmin_r. Qed.

Lemma calculateForceMagnitude_mono (i j : R) :
  i <= j -> calculateForceMagnitude i <= calculateForceMagnitude j.
Proof. intros H. unfold calculateForceMagnitude. min_max. Qed.

Lemma calculateForceMagnitude_range (i : R) :
  50 <= calculateForceMagnitude i <= 150.
Proof. unfold calculateForceMagnitude. min_max. Qed.

(** Both caps are attained, so they are the least upper bounds. *)
Lemma caps_attained :
  calculatePenetrationDepth 75 = 60 /\ calculateForceMagnitude 100 = 150.
Proof.
  unfold calculatePenetrationDepth, calculateForceMagnitude.
  split; min_max.
Qed.


(** The component's private copy is the library function at the
    simulation's constant. *)
Lemma calculateGravitationalForce_library (m1 m2 r : R) :
  GravitySim.calculateGravitationalForce m1 m2 r =
  Gravity.calculateForceMagnitude GravitySim.GRAVITATIONAL_CONSTANT m1 m2 r.
Proof. reflexivity. Qed.

Lemma GRAVITATIONAL_CONSTANT_pos : 0 < GravitySim.GRAVITATIONAL_CONSTANT.
Proof. unfold GravitySim.GRAVITATIONAL_CONSTANT. lra. Qed.

End Formulas.

(** C7 (what the code keeps of it).  For masses and velocities above
    zero the impulse is the product [m * v] the code computes, and it
    never decreases when either argument grows.  Growth is strict
    only in exact arithmetic: the product is rounded, and neighbouring
    doubles can give the same impulse. *)
Theorem impulse_is_product_and_monotone (m v : R) :
  0 < m -> 0 < v ->
  HammerNail.calculateImpulse m v = m * v
  /\ (forall m', m <= m' ->
        HammerNail.calculateImpulse m v <= HammerNail.calculateImpulse m' v)
  /\ (forall v', v <= v' ->
        HammerNail.calculateImpulse m v <= HammerNail.calculateImpulse m v').
Proof.
  intros Hm Hv. split; [ | split ].
  - apply calculateImpulse_pos; assumption.
  - intros m' Hle. rewrite !calculateImpulse_pos by lra.
    apply Rmult_le_compat_r; lra.
  - intros v' Hle. rewrite !calculateImpulse_pos by lra.
    apply Rmult_le_compat_l; lra.
Qed.

Lemma impulse_is_product_and_monotone_witness :
  HammerNail.calculateImpulse 5 0.1 = 5 * 0.1
  /\ HammerNail.calculateImpulse 5 0.1 <= HammerNail.calculateImpulse 10 0.1
  /\ HammerNail.calculateImpulse 5 0.1 <= HammerNail.calculateImpulse 5 0.15.
Proof.
  destruct (impulse_is_product_and_monotone 5 0.1) as (He & Hm & Hv);
    [lra | lra | ].
  split; [exact He | split; [apply Hm | apply Hv]; lra].
Defined.

Section ImpulseInBinary64.

Import PrimFloat.

(** In the code's doubles the impulse is not strictly increasing:
    1.7 and the next double above it are different velocities, and
    with mass 5 both give the impulse 8.5. *)
Lemma impulse_ties_in_binary64 :
  PrimFloat.ltb 1.7%float (PrimFloat.next_up 1.7%float) = true
  /\ Binary64.calculateImpulse 5%float 1.7%float
     = Binary64.calculateImpulse 5%float (PrimFloat.next_up 1.7%float).
Proof. split; reflexivity. Qed.

End ImpulseInBinary64.

(** C8.  On non-negative impulses the penetration depth and the arrow
    length never decrease when the impulse grows, and stay below
    their caps, 60 and 150. *)
Theorem visual_formulas_saturate (i j : R) :
  0 <= i -> i <= j ->
  HammerNail.calculatePenetrationDepth i
    <= HammerNail.calculatePenetrationDepth j
  /\ HammerNail.calculatePenetrationDepth i <= 60
  /\ HammerNail.calculateForceMagnitude i
    <= HammerNail.calculateForceMagnitude j
  /\ HammerNail.calculateForceMagnitude i <= 150.
Proof.
  intros _ Hij. repeat split.
  - apply calculatePenetrationDepth_mono; assumption.
  - apply calculatePenetrationDepth_cap.
  - apply calculateForceMagnitude_mono; assumption.
  - apply calculateForceMagnitude_range.
Qed.

Lemma visual_formulas_saturate_witness :
  HammerNail.calculatePenetrationDepth 50
    <= HammerNail.calculatePenetrationDepth 100
  /\ HammerNail.calculatePenetrationDepth 50 <= 60
  /\ HammerNail.calculateForceMagnitude 50
    <= HammerNail.calculateForceMagnitude 100
  /\ HammerNail.calculateForceMagnitude 50 <= 150.
Proof. apply (visual_formulas_saturate 50 100); lra. Defined.

Lemma moderate_pos (x : R) : moderate x -> 0 < x.
Proof.
  unfold moderate. intros [Hlo _].
  assert (0 < / 10 ^ 60) by (apply Rinv_0_lt_compat, pow_lt; lra).
  lra.
Qed.




Lemma moderate_simulation_values :
  moderate 15000 /\ moderate 1 /\ moderate 0.5
  /\ moderate 150 /\ moderate 280 /\ moderate 400.
Proof.
  assert (H : 10 ^ 6 <= 10 ^ 60).
  { apply Rle_pow; [lra | lia]. }
  assert (Hbig : 1000000 <= 10 ^ 60) by (simpl in H |- *; lra).
  assert (Hpos : 0 < 10 ^ 60) by lra.
  assert (Hsmall : / 10 ^ 60 <= / 1000000).
  { apply Rinv_le_contravar; lra. }
  unfold moderate. repeat split; lra.
Qed.


Section ForceInBinary64.

Import PrimFloat.


End ForceInBinary64.

(** ** The distance guard *)

Lemma unguarded_division_faults (k : R) : Checked.div k 0 = None.
Proof.
  unfold Checked.div. destruct (Req_dec_T 0 0) as [_ | H];
    [reflexivity | contradiction H; reflexivity].
Qed.

Lemma calculateOrbitalVelocity_checked_total (M r : R) :
  0 <= M ->
  GravitySim.calculateOrbitalVelocity_checked M r
  = Some (GravitySim.calculateOrbitalVelocity M r).
Proof.
  intros HM.
  unfold GravitySim.calculateOrbitalVelocity_checked,
    GravitySim.calculateOrbitalVelocity.
  destruct (Rle_dec r 0) as [Hr | Hr]; [reflexivity | ].
  unfold Checked.div. destruct (Req_dec_T r 0) as [E | _]; [lra | ].
  cbn [Checked.bind]. unfold Checked.sqrt.
  destruct (Rlt_dec _ 0) as [Hneg | _]; [ | reflexivity].
  exfalso. apply (Rlt_not_le _ _ Hneg).
  apply Rmult_le_pos.
  - apply Rmult_le_pos; [ | assumption].
    apply Rlt_le, GRAVITATIONAL_CONSTANT_pos.
  - apply Rlt_le, Rinv_0_lt_compat. lra.
Qed.

Lemma calculateGravitationalForce_checked_total (m1 m2 r : R) :
  GravitySim.calculateGravitationalForce_checked m1 m2 r
  = Some (GravitySim.calculateGravitationalForce m1 m2 r).
Proof.
  unfold GravitySim.calculateGravitationalForce_checked,
    GravitySim.calculateGravitationalForce.
  destruct (Rle_dec r 0) as [Hr | Hr]; [reflexivity | ].
  unfold Checked.div. destruct (Req_dec_T (r * r) 0) as [E | _];
    [ | reflexivity].
  apply Rmult_integral in E. lra.
Qed.

Lemma unguarded_sqrt_faults (a : R) : a < 0 -> Checked.sqrt a = None.
Proof.
  intros H. unfold Checked.sqrt.
  destruct (Rlt_dec a 0); [reflexivity | contradiction].
Qed.

Lemma calculateOrbitalVelocity_checked_negative_mass (M r : R) :
  0 < r -> M < 0 -> GravitySim.calculateOrbitalVelocity_checked M r = None.
Proof.
  intros Hr HM. unfold GravitySim.calculateOrbitalVelocity_checked.
  destruct (Rle_dec r 0); [lra | ].
  unfold Checked.div. destruct (Req_dec_T r 0); [lra | ].
  cbn [Checked.bind]. apply unguarded_sqrt_faults.
  assert (Hinv : 0 < / r) by (apply Rinv_0_lt_compat; exact Hr).
  unfold GravitySim.GRAVITATIONAL_CONSTANT, Rdiv.
  assert (Hprod : 0 < - (15000 * M) * / r)
    by (apply Rmult_lt_0_compat; lra).
  lra.
Qed.

(** C6 (what the code keeps of it).  The orbital velocity is 0 at
    every non-positive distance, whatever the mass.  At a distance of
    moderate magnitude and for a mass from 0 to 1e60 it is
    [sqrt (G * M / r)], computed without fault; so is the force, for
    masses up to 1e60 either way.  The distance guard is the only
    guard of the two formulas, but not the only fault: a negative
    mass at a positive distance is not guarded, and the square root
    then faults (NaN) instead of answering 0. *)
Theorem orbital_velocity_guard_and_faults (M r : R) :
  (r <= 0 ->
     GravitySim.calculateOrbitalVelocity M r = 0
     /\ GravitySim.calculateOrbitalVelocity_checked M r = Some 0)
  /\ (moderate r -> 0 <= M <= 10 ^ 60 ->
      GravitySim.calculateOrbitalVelocity M r
      = sqrt (GravitySim.GRAVITATIONAL_CONSTANT * M / r)
      /\ GravitySim.calculateOrbitalVelocity_checked M r
         = Some (sqrt (GravitySim.GRAVITATIONAL_CONSTANT * M / r)))
  /\ (moderate r -> moderate (- M) ->
      GravitySim.calculateOrbitalVelocity_checked M r = None)
  /\ (forall m2, moderate r ->
      - 10 ^ 60 <= M <= 10 ^ 60 -> - 10 ^ 60 <= m2 <= 10 ^ 60 ->
      GravitySim.calculateGravitationalForce_checked M m2 r
      = Some (GravitySim.calculateGravitationalForce M m2 r)).
Proof.
  split; [ | split; [ | split]].
  - intros Hr.
    unfold GravitySim.calculateOrbitalVelocity,
      GravitySim.calculateOrbitalVelocity_checked.
    destruct (Rle_dec r 0); [split; reflexivity | contradiction].
  - intros Hr [HM _]. apply moderate_pos in Hr.
    assert (Hv : GravitySim.calculateOrbitalVelocity M r
                 = sqrt (GravitySim.GRAVITATIONAL_CONSTANT * M / r)).
    { unfold GravitySim.calculateOrbitalVelocity.
      destruct (Rle_dec r 0); [lra | reflexivity]. }
    split; [exact Hv | ].
    rewrite calculateOrbitalVelocity_checked_total by exact HM.
    rewrite Hv. reflexivity.
  - intros Hr HM. apply moderate_pos in Hr, HM.
    apply calculateOrbitalVelocity_checked_negative_mass; lra.
  - intros m2 _ _ _. apply calculateGravitationalForce_checked_total.
Qed.

Lemma orbital_velocity_guard_and_faults_witness :
  GravitySim.calculateOrbitalVelocity 1 0 = 0
  /\ GravitySim.calculateOrbitalVelocity 1 280
     = sqrt (GravitySim.GRAVITATIONAL_CONSTANT * 1 / 280)
  /\ GravitySim.calculateOrbitalVelocity_checked (-1) 150 = None.
Proof.
  destruct moderate_simulation_values as (_ & H1 & _ & H150 & H280 & _).
  assert (Hone : 0 <= 1 <= 10 ^ 60) by (destruct H1; lra).
  assert (Hneg : moderate (- -1)).
  { replace (- -1) with 1 by ring. exact H1. }
  split; [ | split ].
  - apply (orbital_velocity_guard_and_faults 1 0). lra.
  - apply (orbital_velocity_guard_and_faults 1 280 ); assumption.
  - apply (orbital_velocity_guard_and_faults (-1) 150); assumption.
Defined.

Section VelocityInBinary64.

Import PrimFloat.

(** In the code's doubles: with the mass -1 and the positive distance
    150 the guard lets the call through and the result is NaN,
    neither 0 nor a velocity. *)
Lemma negative_mass_gives_nan :
  PrimFloat.leb 150%float 0%float = false
  /\ PrimFloat.is_nan
       (Binary64.calculateOrbitalVelocity (-1)%float 150%float) = true
  /\ PrimFloat.eqb
       (Binary64.calculateOrbitalVelocity (-1)%float 150%float) 0%float
     = false.
Proof. repeat split; reflexivity. Qed.

End VelocityInBinary64.

(** ** Pointer drag *)

Lemma clamp_in_range (d : R) :
  GravitySim.MIN_DISTANCE
  <= Rmax GravitySim.MIN_DISTANCE (Rmin GravitySim.MAX_DISTANCE d)
  <= GravitySim.MAX_DISTANCE.
Proof.
  unfold GravitySim.MIN_DISTANCE, GravitySim.MAX_DISTANCE. min_max.
Qed.

Lemma mouse_move_without_drag (canvas : option GravitySim.DOMRect)
    (e : GravitySim.MouseEvent) (c : GravitySim.Component) :
  GravitySim.isDraggingRef c = false ->
  GravitySim.handleCanvasMouseMove canvas e c = c.
Proof.
  intros H. unfold GravitySim.handleCanvasMouseMove. rewrite H. reflexivity.
Qed.

(** C9.  While a drag is in progress, a pointer move whose distance
    from the Earth's centre is [d] stores
    [max MIN_DISTANCE (min MAX_DISTANCE d)] in [moonDistance]. *)
Theorem drag_clamps_moon_distance (rect : GravitySim.DOMRect)
    (e : GravitySim.MouseEvent) (c : GravitySim.Component) :
  GravitySim.isDraggingRef c = true ->
  GravitySim.moonDistance
    (GravitySim.physicsRef
       (GravitySim.handleCanvasMouseMove (Some rect) e c))
  = Rmax GravitySim.MIN_DISTANCE
      (Rmin GravitySim.MAX_DISTANCE (GravitySim.rawDistance rect e)).
Proof.
  intros Hdrag.
  unfold GravitySim.handleCanvasMouseMove, GravitySim.rawDistance.
  rewrite Hdrag. cbn [negb].
  destruct (GravitySim.canvasPoint rect e) as [x y].
  reflexivity.
Qed.

Lemma drag_clamps_moon_distance_witness :
  let rect := GravitySim.mkDOMRect 0 0 800 600 in
  let e := GravitySim.mkMouseEvent 400 300 in
  let c := GravitySim.handleCanvasMouseDown (Some rect)
             (GravitySim.mkMouseEvent 680 300) GravitySim.initial in
  GravitySim.isDraggingRef c = true
  /\ GravitySim.moonDistance
       (GravitySim.physicsRef
          (GravitySim.handleCanvasMouseMove (Some rect) e c))
     = Rmax GravitySim.MIN_DISTANCE
         (Rmin GravitySim.MAX_DISTANCE (GravitySim.rawDistance rect e)).
Proof.
  intros rect e c.
  assert (Hdrag : GravitySim.isDraggingRef c = true).
  { unfold c, GravitySim.handleCanvasMouseDown, rect,
      GravitySim.canvasPoint. cbn.
    destruct (Rlt_dec _ _) as [_ | Hfar]; [reflexivity | ].
    exfalso. apply Hfar.
    unfold GravitySim.EARTH_X, GravitySim.EARTH_Y,
      GravitySim.INITIAL_DISTANCE, GravitySim.CANVAS_WIDTH,
      GravitySim.CANVAS_HEIGHT, GravitySim.MOON_RADIUS.
    replace ((680 - 0) * (800 / 800) - (400 + 280)) with 0 by field.
    replace ((300 - 0) * (600 / 600) - 300) with 0 by field.
    replace (0 * (0 * 1) + 0 * (0 * 1)) with 0 by ring.
    rewrite sqrt_0. lra. }
  split; [exact Hdrag | ].
  apply (drag_clamps_moon_distance rect e c Hdrag).
Defined.

(** ** Force symmetry *)

Lemma hammer_arrow_lengths (ready : bool) (phys : Hammer.AnimationState) :
  map arrowLength (Hammer.drawScene ready phys)
  = match Hammer.state phys with
    | Hammer.pause =>
        if ready
        then [Hammer.forceMagnitude phys; Hammer.forceMagnitude phys]
        else []
    | _ => []
    end.
Proof.
  unfold Hammer.drawScene.
  destruct ready, (Hammer.state phys); reflexivity.
Qed.

Lemma gravity_arrow_lengths (ready show : bool)
    (phys : GravitySim.AnimationState) :
  map arrowLength (GravitySim.drawScene ready show phys)
  = if ready && show
    then [GravitySim.forceMagnitude phys; GravitySim.forceMagnitude phys]
    else [].
Proof.
  unfold GravitySim.drawScene. destruct ready, show; reflexivity.
Qed.

(** The hammer's two arrows point in exactly opposite directions. *)
Lemma hammer_arrows_opposite (phys : Hammer.AnimationState) (a b : ArrowCall) :
  Hammer.drawScene true phys = [a; b] ->
  arrowDir b = Vector.invert (arrowDir a).
Proof.
  unfold Hammer.drawScene. cbn [negb].
  destruct (Hammer.state phys); try discriminate.
  intros H. injection H as <- <-. cbn. unfold Vector.invert. cbn.
  f_equal; lra.
Qed.

(** So do the Earth's and the Moon's. *)
Lemma gravity_arrows_opposite (phys : GravitySim.AnimationState)
    (a b : ArrowCall) :
  GravitySim.drawScene true true phys = [a; b] ->
  arrowDir b = Vector.invert (arrowDir a).
Proof.
  unfold GravitySim.drawScene. cbn [negb].
  intros H. injection H as Ha Hb. subst a b.
  cbn [arrowDir]. unfold Vector.invert. cbn [vx vy].
  set (dx := GravitySim.EARTH_X - GravitySim.moonX phys).
  set (dy := GravitySim.EARTH_Y - GravitySim.moonY phys).
  replace (GravitySim.moonX phys - GravitySim.EARTH_X) with (- dx)
    by (unfold dx; ring).
  replace (GravitySim.moonY phys - GravitySim.EARTH_Y) with (- dy)
    by (unfold dy; ring).
  replace (- dx * (- dx * 1) + - dy * (- dy * 1))
    with (dx * (dx * 1) + dy * (dy * 1)) by ring.
  f_equal; unfold Rdiv; ring.
Qed.

(** C1.  In either scenario a frame draws no force arrow or exactly
    two, and the length argument of both [drawArrow] calls is the
    [forceMagnitude] field of the scenario's physics record: the two
    opposing arrows always have the same length.  This holds of
    [drawScene] on any record, hence of every frame of the loops. *)
Theorem force_arrows_share_length :
  (forall ready phys,
     map arrowLength (Hammer.drawScene ready phys)
     = match Hammer.state phys with
       | Hammer.pause =>
           if ready
           then [Hammer.forceMagnitude phys; Hammer.forceMagnitude phys]
           else []
       | _ => []
       end)
  /\ (forall ready show phys,
        map arrowLength (GravitySim.drawScene ready show phys)
        = if ready && show
          then [GravitySim.forceMagnitude phys;
                GravitySim.forceMagnitude phys]
          else [])
  /\ (forall ready c,
        snd (Hammer.frame ready c)
        = Hammer.drawScene ready (Hammer.physicsRef (Hammer.update c)))
  /\ (forall ready c,
        snd (GravitySim.frame ready c)
        = GravitySim.drawScene ready
            (GravitySim.showForceArrows c)
            (GravitySim.physicsRef (GravitySim.update c))).
Proof.
  split; [exact hammer_arrow_lengths | ].
  split; [exact gravity_arrow_lengths | ].
  split; intros; reflexivity.
Qed.

(** The same fact read off the arrows of a frame. *)
Corollary frame_arrows_equal_length :
  (forall ready c a b,
     snd (Hammer.frame ready c) = [a; b] -> arrowLength a = arrowLength b)
  /\ (forall ready c a b,
        snd (GravitySim.frame ready c) = [a; b] ->
        arrowLength a = arrowLength b).
Proof.
  split; intros ready c a b Hdraw;
    cbn [snd Hammer.frame GravitySim.frame] in Hdraw.
  - pose proof (hammer_arrow_lengths ready
      (Hammer.physicsRef (Hammer.update c))) as Hh.
    rewrite Hdraw in Hh. cbn [map] in Hh.
    destruct (Hammer.state _), ready; congruence.
  - pose proof (gravity_arrow_lengths ready
      (GravitySim.showForceArrows (GravitySim.update c))
      (GravitySim.physicsRef (GravitySim.update c))) as Hg.
    rewrite Hdraw in Hg. cbn [map] in Hg.
    destruct (ready && _); congruence.
Qed.

(** ** The path trail *)

Section PathTrail.

Import GravitySim.

Lemma tl_skipn {A : Type} (n : nat) (l : list A) :
  tl (skipn n l) = skipn (S n) l.
Proof.
  revert l. induction n as [ | n IH]; intros l.
  - destruct l; reflexivity.
  - destruct l as [ | a l]; [reflexivity | ].
    rewrite !skipn_cons. apply IH.
Qed.

Lemma length_lastn {A : Type} (k : nat) (l : list A) :
  List.length (lastn k l) = Nat.min k (List.length l).
Proof. unfold lastn. rewrite length_skipn. lia. Qed.

(** Recording into a window of the [PATH_CAP + 1] latest points
    gives the window of the extended history. *)
Lemma recordPath_window (history : list Vector2D) (p : Vector2D) :
  recordPath (lastn (S PATH_CAP) history) p
  = lastn (S PATH_CAP) (history ++ [p]).
Proof.
  unfold recordPath. rewrite length_lastn.
  unfold lastn. rewrite length_app. cbn [List.length].
  destruct (Nat.ltb_spec PATH_CAP
              (Nat.min (S PATH_CAP) (List.length history))) as [Hfull | Hroom].
  - rewrite tl_skipn, skipn_app.
    replace (S (List.length history - S PATH_CAP))
      with (List.length history + 1 - S PATH_CAP)%nat by lia.
    replace (List.length history + 1 - S PATH_CAP - List.length history)%nat
      with 0%nat by lia.
    reflexivity.
  - replace (List.length history - S PATH_CAP)%nat with 0%nat by lia.
    replace (List.length history + 1 - S PATH_CAP)%nat with 0%nat by lia.
    reflexivity.
Qed.

Lemma update_keeps_phase (c : Component) :
  state (physicsRef (update c)) = state (physicsRef c).
Proof.
  unfold update, updatePhysics. cbn.
  destruct (state (physicsRef c)) eqn:E; cbn; congruence.
Qed.

Lemma updates_keep_phase (n : nat) (c : Component) :
  state (physicsRef (updates n c)) = state (physicsRef c).
Proof.
  induction n as [ | n IH]; [reflexivity | ].
  change (updates (S n) c) with (update (updates n c)).
  rewrite update_keeps_phase. exact IH.
Qed.

Lemma update_records_position (c : Component) :
  state (physicsRef c) = running ->
  pathPoints (physicsRef (update c))
  = recordPath (pathPoints (physicsRef c)) (moonPosition (update c)).
Proof.
  intros Hrun. unfold moonPosition, update, updatePhysics.
  rewrite Hrun. reflexivity.
Qed.

Lemma update_idle_or_paused (c : Component) :
  state (physicsRef c) <> running -> update c = c.
Proof.
  intros H. unfold update, updatePhysics.
  destruct c as [p s d e m a o]; cbn in *.
  destruct (state p); [reflexivity | contradiction | reflexivity].
Qed.

Lemma positions_S (n : nat) (c : Component) :
  positions (S n) c = positions n c ++ [moonPosition (updates (S n) c)].
Proof.
  unfold positions. rewrite seq_S, map_app. reflexivity.
Qed.

Lemma length_positions (n : nat) (c : Component) :
  List.length (positions n c) = n.
Proof. unfold positions. rewrite length_map, length_seq. reflexivity. Qed.

(** What the running loop keeps: the latest [PATH_CAP + 1] moon
    positions, oldest first. *)
Lemma trail_is_window (c : Component) (n : nat) :
  state (physicsRef c) = running ->
  pathPoints (physicsRef c) = [] ->
  pathPoints (physicsRef (updates n c))
  = lastn (S PATH_CAP) (positions n c).
Proof.
  intros Hrun Hempty. induction n as [ | n IH].
  - cbn. rewrite Hempty. reflexivity.
  - rewrite positions_S, <- recordPath_window, <- IH.
    change (updates (S n) c) with (update (updates n c)).
    apply update_records_position.
    rewrite updates_keep_phase. exact Hrun.
Qed.

Lemma trail_length (c : Component) (n : nat) :
  state (physicsRef c) = running ->
  pathPoints (physicsRef c) = [] ->
  List.length (pathPoints (physicsRef (updates n c)))
  = Nat.min (S PATH_CAP) n.
Proof.
  intros Hrun Hempty.
  rewrite trail_is_window, length_lastn, length_positions by assumption.
  reflexivity.
Qed.

End PathTrail.

(** C3.  The trail is bounded by its cap, [TRAIL_CAP], the largest
    length the guard and the push let it reach.  From an empty trail,
    after [n] running updates with [n] above the cap the trail has
    exactly [TRAIL_CAP] points, and they are the latest [TRAIL_CAP]
    moon positions, oldest first; a trail at the cap loses its oldest
    point when the next one is pushed, a shorter one loses nothing. *)
Theorem trail_holds_latest_cap_positions
    (c : GravitySim.Component) (n : nat) :
  GravitySim.state (GravitySim.physicsRef c) = GravitySim.running ->
  GravitySim.pathPoints (GravitySim.physicsRef c) = [] ->
  (GravitySim.TRAIL_CAP < n)%nat ->
  List.length
    (GravitySim.pathPoints (GravitySim.physicsRef (GravitySim.updates n c)))
  = GravitySim.TRAIL_CAP
  /\ GravitySim.pathPoints (GravitySim.physicsRef (GravitySim.updates n c))
     = GravitySim.lastn GravitySim.TRAIL_CAP (GravitySim.positions n c)
  /\ (forall oldest rest p,
        List.length (oldest :: rest) = GravitySim.TRAIL_CAP ->
        GravitySim.recordPath (oldest :: rest) p = rest ++ [p])
  /\ (forall points p,
        (List.length points < GravitySim.TRAIL_CAP)%nat ->
        GravitySim.recordPath points p = points ++ [p]).
Proof.
  unfold GravitySim.TRAIL_CAP. intros Hrun Hempty Hn.
  split; [ | split; [ | split]].
  - rewrite trail_length by assumption. lia.
  - apply trail_is_window; assumption.
  - intros oldest rest p Hlen. unfold GravitySim.recordPath.
    destruct (Nat.ltb_spec GravitySim.PATH_CAP
                (List.length (oldest :: rest))) as [_ | Hno];
      [reflexivity | lia].
  - intros points p Hlen. unfold GravitySim.recordPath.
    destruct (Nat.ltb_spec GravitySim.PATH_CAP (List.length points))
      as [Hfull | _]; [lia | reflexivity].
Qed.

Lemma trail_holds_latest_cap_positions_witness :
  let c := GravitySim.handlePlay GravitySim.initial in
  List.length
    (GravitySim.pathPoints (GravitySim.physicsRef (GravitySim.updates 502 c)))
  = GravitySim.TRAIL_CAP.
Proof.
  intros c.
  apply (trail_holds_latest_cap_positions c 502);
    [reflexivity | reflexivity
     | unfold GravitySim.TRAIL_CAP, GravitySim.PATH_CAP; lia].
Defined.

(** ** The hammer state machine *)

Lemma PI_bounds : 3 < PI < 33 / 10.
Proof.
  split.
  - pose proof PI2_3_2. lra.
  - pose proof (PI_ineq 3) as [_ Hup].
    unfold sum_f_R0, tg_alt, PI_tg in Hup. simpl in Hup. lra.
Qed.

Section HammerMachine.

Import Hammer.

Lemma run_app (es1 es2 : list Event) (c : Component) :
  run (es1 ++ es2) c = run es2 (run es1 c).
Proof.
  revert c. induction es1 as [ | e es1 IH]; intros c; [reflexivity | ].
  cbn [app run]. apply IH.
Qed.

Lemma frames_add (a b : nat) (c : Component) :
  run (frames (a + b)) c = run (frames b) (run (frames a) c).
Proof. unfold frames. rewrite repeat_app. apply run_app. Qed.

Lemma SWING_SPEED_RADS_pos (s : SpeedOption) : 0 < SWING_SPEED_RADS s.
Proof. destruct s; unfold SWING_SPEED_RADS; lra. Qed.

Lemma strikeDepth_range (m : MassOption) (s : SpeedOption) :
  0 < strikeDepth m s <= 1.2.
Proof.
  unfold strikeDepth.
  rewrite calculateImpulse_pos
    by (destruct m, s; unfold MASS_MAP, SWING_SPEED_RADS; lra).
  unfold HammerNail.calculatePenetrationDepth.
  destruct m, s; unfold MASS_MAP, SWING_SPEED_RADS; min_max.
Qed.

(** *** Single passes of [update] *)

Lemma update_swing_on (c : Component) :
  state (physicsRef c) = swinging ->
  HAMMER_IMPACT_ANGLE
    < hammerAngle (physicsRef c) - SWING_SPEED_RADS (speedOption c) ->
  update c
  = mkComponent
      (mkAnimationState swinging
         (hammerAngle (physicsRef c) - SWING_SPEED_RADS (speedOption c))
         (nailDepth (physicsRef c)) (maxDepth (physicsRef c))
         (forceMagnitude (physicsRef c)))
      (simState c) (massOption c) (speedOption c).
Proof.
  intros Hst Hgap. unfold update, step. rewrite Hst.
  destruct (Rle_dec _ _); [lra | reflexivity].
Qed.

Lemma update_swing_impact (c : Component) :
  state (physicsRef c) = swinging ->
  hammerAngle (physicsRef c) - SWING_SPEED_RADS (speedOption c)
    <= HAMMER_IMPACT_ANGLE ->
  update c
  = mkComponent
      (mkAnimationState contact
         (hammerAngle (physicsRef c) - SWING_SPEED_RADS (speedOption c))
         (nailDepth (physicsRef c))
         (maxDepth (physicsRef c)
          + strikeDepth (massOption c) (speedOption c))
         (strikeForce (massOption c) (speedOption c)))
      contact (massOption c) (speedOption c).
Proof.
  intros Hst Hgap. unfold update, step. rewrite Hst.
  destruct (Rle_dec _ _); [reflexivity | lra].
Qed.

Lemma update_contact_drive (c : Component) :
  state (physicsRef c) = contact ->
  nailDepth (physicsRef c) < maxDepth (physicsRef c) ->
  update c
  = mkComponent
      (mkAnimationState contact (hammerAngle (physicsRef c))
         (nailDepth (physicsRef c) + 5) (maxDepth (physicsRef c))
         (forceMagnitude (physicsRef c)))
      (simState c) (massOption c) (speedOption c).
Proof.
  intros Hst Hlt. unfold update, step. rewrite Hst.
  destruct (Rlt_dec _ _); [reflexivity | contradiction].
Qed.

Lemma update_contact_done (c : Component) :
  state (physicsRef c) = contact ->
  maxDepth (physicsRef c) <= nailDepth (physicsRef c) ->
  update c
  = mkComponent
      (mkAnimationState pause (hammerAngle (physicsRef c))
         (maxDepth (physicsRef c)) (maxDepth (physicsRef c))
         (forceMagnitude (physicsRef c)))
      pause (massOption c) (speedOption c).
Proof.
  intros Hst Hge. unfold update, step. rewrite Hst.
  destruct (Rlt_dec _ _); [lra | reflexivity].
Qed.

Lemma update_pause (c : Component) :
  state (physicsRef c) = pause -> update c = c.
Proof.
  intros Hst. unfold update, step. rewrite Hst. destruct c; reflexivity.
Qed.

Lemma frames_pause (n : nat) (c : Component) :
  state (physicsRef c) = pause -> run (frames n) c = c.
Proof.
  intros Hst. induction n as [ | n IH]; [reflexivity | ].
  cbn [frames repeat run handle]. rewrite update_pause by assumption.
  exact IH.
Qed.

(** *** The downswing *)

(** While the impact angle is not reached, [k] frames lower the
    hammer by [k] steps and change nothing else. *)
Lemma swing_progress (k : nat) : forall c : Component,
  state (physicsRef c) = swinging ->
  HAMMER_IMPACT_ANGLE
    < hammerAngle (physicsRef c) - INR k * SWING_SPEED_RADS (speedOption c) ->
  run (frames k) c
  = mkComponent
      (mkAnimationState swinging
         (hammerAngle (physicsRef c)
          - INR k * SWING_SPEED_RADS (speedOption c))
         (nailDepth (physicsRef c)) (maxDepth (physicsRef c))
         (forceMagnitude (physicsRef c)))
      (simState c) (massOption c) (speedOption c).
Proof.
  induction k as [ | k IH]; intros c Hst Hgap.
  - destruct c as [[st a d md f] sim m s]. cbn in *. subst st.
    do 2 f_equal. lra.
  - pose proof (SWING_SPEED_RADS_pos (speedOption c)) as Hpos.
    pose proof (pos_INR k) as Hk.
    rewrite S_INR in *.
    assert (Hone : HAMMER_IMPACT_ANGLE
              < hammerAngle (physicsRef c)
                - SWING_SPEED_RADS (speedOption c)) by nra.
    cbn [frames repeat run handle].
    rewrite (update_swing_on c Hst Hone).
    fold (frames k). rewrite IH; cbn; [ | reflexivity | lra].
    do 2 f_equal. lra.
Qed.

Lemma swing_reaches_impact (s : SpeedOption) :
  HAMMER_IMPACT_ANGLE
    < INITIAL_HAMMER_ANGLE
      - INR (framesToContact s - 1) * SWING_SPEED_RADS s
  /\ INITIAL_HAMMER_ANGLE
      - INR (framesToContact s - 1) * SWING_SPEED_RADS s
      - SWING_SPEED_RADS s
     <= HAMMER_IMPACT_ANGLE.
Proof.
  pose proof PI_bounds as [Hlo Hhi].
  unfold HAMMER_IMPACT_ANGLE, INITIAL_HAMMER_ANGLE.
  destruct s; cbn [framesToContact SWING_SPEED_RADS Nat.sub];
    rewrite <- ?INR_IZR_INZ; simpl INR; lra.
Qed.

(** *** One full strike from the mounted component *)

Lemma after_hit (m : MassOption) (s : SpeedOption) :
  run [SelectMass m; SelectSpeed s; ClickAction] initial
  = mkComponent (mkAnimationState swinging INITIAL_HAMMER_ANGLE 0 0 0)
      swinging m s.
Proof. reflexivity. Qed.

Lemma hitAndWait_split (m : MassOption) (s : SpeedOption) (n : nat) :
  run (hitAndWait m s n) initial
  = run (frames n)
      (mkComponent (mkAnimationState swinging INITIAL_HAMMER_ANGLE 0 0 0)
         swinging m s).
Proof. reflexivity. Qed.

Lemma swinging_until_contact (m : MassOption) (s : SpeedOption) (k : nat) :
  (k < framesToContact s)%nat ->
  state (physicsRef (run (hitAndWait m s k) initial)) = swinging.
Proof.
  intros Hk. rewrite hitAndWait_split.
  destruct (swing_reaches_impact s) as [Hgap _].
  pose proof (SWING_SPEED_RADS_pos s) as Hpos.
  assert (Hle : INR k <= INR (framesToContact s - 1))
    by (apply le_INR; lia).
  rewrite swing_progress; [reflexivity | reflexivity | cbn; nra].
Qed.

Lemma at_contact (m : MassOption) (s : SpeedOption) :
  run (hitAndWait m s (framesToContact s)) initial
  = firstStrike m s contact 0.
Proof.
  rewrite hitAndWait_split.
  replace (framesToContact s) with (framesToContact s - 1 + 1)%nat at 1
    by (destruct s; reflexivity).
  destruct (swing_reaches_impact s) as [Hgap Hhit].
  rewrite frames_add.
  rewrite (swing_progress (framesToContact s - 1))
    by first [reflexivity | exact Hgap].
  cbn [frames repeat run handle].
  rewrite update_swing_impact by first [reflexivity | exact Hhit].
  reflexivity.
Qed.

Lemma hitAndWait_add (m : MassOption) (s : SpeedOption) (a b : nat)
    (c : Component) :
  run (hitAndWait m s (a + b)) c
  = run (frames b) (run (hitAndWait m s a) c).
Proof. unfold hitAndWait. cbn [run]. apply frames_add. Qed.

Lemma at_overshoot (m : MassOption) (s : SpeedOption) :
  run (hitAndWait m s (framesToContact s + 1)) initial
  = firstStrike m s contact (0 + 5).
Proof.
  rewrite hitAndWait_add, at_contact. cbn [frames repeat run handle].
  pose proof (strikeDepth_range m s) as Hd.
  rewrite update_contact_drive; [reflexivity | reflexivity | cbn; lra].
Qed.

Lemma at_pause (m : MassOption) (s : SpeedOption) :
  run (hitAndWait m s (framesToContact s + 2)) initial
  = firstStrike m s pause (0 + strikeDepth m s).
Proof.
  replace (framesToContact s + 2)%nat
    with (framesToContact s + 1 + 1)%nat by lia.
  rewrite hitAndWait_add, at_overshoot. cbn [frames repeat run handle].
  pose proof (strikeDepth_range m s) as Hd.
  rewrite update_contact_done; [reflexivity | reflexivity | cbn; lra].
Qed.

Lemma stays_paused (m : MassOption) (s : SpeedOption) (k : nat) :
  (framesToContact s + 2 <= k)%nat ->
  run (hitAndWait m s k) initial
  = firstStrike m s pause (0 + strikeDepth m s).
Proof.
  intros Hk.
  replace k with (framesToContact s + 2 + (k - (framesToContact s + 2)))%nat
    by lia.
  rewrite hitAndWait_add, at_pause. apply frames_pause. reflexivity.
Qed.

(** The first part of the cycle, which the code does perform: after
    Hit the machine swings for exactly [framesToContact s] frames,
    is in Contact for two frames, then rests in Pause with
    [nailDepth = maxDepth]. *)
Lemma hit_reaches_contact_then_pause (m : MassOption) (s : SpeedOption)
    (k : nat) :
  state (physicsRef (run (hitAndWait m s k) initial))
  = if (k <? framesToContact s)%nat then swinging
    else if (k <? framesToContact s + 2)%nat then contact
    else pause.
Proof.
  destruct (Nat.ltb_spec k (framesToContact s)) as [Hsw | Hge].
  - apply swinging_until_contact. exact Hsw.
  - destruct (Nat.ltb_spec k (framesToContact s + 2)) as [Hct | Hps].
    + assert (Hk : k = framesToContact s \/ k = (framesToContact s + 1)%nat)
        by lia.
      destruct Hk as [-> | ->]; [rewrite at_contact | rewrite at_overshoot];
        reflexivity.
    + rewrite stays_paused by exact Hps. reflexivity.
Qed.

(** *** Invariants of every run *)

Lemma sim_state_mirrors_handle (e : Event) (c : Component) :
  simState c = state (physicsRef c) ->
  simState (handle e c) = state (physicsRef (handle e c)).
Proof.
  intros Hsync. destruct c as [[st a d md f] sim m s]. cbn in Hsync. subst sim.
  destruct e; cbn; try reflexivity.
  - unfold update, step; cbn. destruct st; cbn; split_cmp; reflexivity.
  - unfold clickActionButton, buttonDisabled; cbn. destruct st; reflexivity.
Qed.

Lemma sim_state_mirrors (events : list Event) : forall c : Component,
  simState c = state (physicsRef c) ->
  simState (run events c) = state (physicsRef (run events c)).
Proof.
  induction events as [ | e events IH]; intros c Hsync; [exact Hsync | ].
  cbn [run]. apply IH, sim_state_mirrors_handle, Hsync.
Qed.

Lemma handle_never_resetting (e : Event) (c : Component) :
  state (physicsRef c) <> resetting ->
  state (physicsRef (handle e c)) <> resetting.
Proof.
  intros Hno. destruct c as [[st a d md f] sim m s]. cbn in Hno.
  destruct e; cbn; try exact Hno; try discriminate.
  - unfold update, step; cbn.
    destruct st; cbn; split_cmp; cbn; congruence.
  - unfold clickActionButton. destruct (buttonDisabled _); cbn;
      [exact Hno | discriminate].
Qed.

Lemma handle_keeps_swing (e : Event) (c : Component) :
  isReset e = false ->
  inSwing (state (physicsRef c)) = true ->
  inSwing (state (physicsRef (handle e c))) = true.
Proof.
  intros He Hin. destruct c as [[st a d md f] sim m s]. cbn in Hin.
  destruct e; cbn; try exact Hin; try discriminate.
  - unfold update, step; cbn.
    destruct st; cbn in *; try discriminate; split_cmp; reflexivity.
  - unfold clickActionButton. destruct (buttonDisabled _); cbn;
      [exact Hin | reflexivity].
Qed.

Lemma run_keeps_swing (events : list Event) : forall c : Component,
  forallb (fun e => negb (isReset e)) events = true ->
  inSwing (state (physicsRef c)) = true ->
  inSwing (state (physicsRef (run events c))) = true.
Proof.
  induction events as [ | e events IH]; intros c Hev Hin; [exact Hin | ].
  cbn [forallb] in Hev. apply andb_prop in Hev as [He Hev].
  cbn [run]. apply IH; [exact Hev | ].
  apply handle_keeps_swing; [ | exact Hin].
  destruct (isReset e); [discriminate | reflexivity].
Qed.

Lemma withoutReset_clean (events : list Event) :
  forallb (fun e => negb (isReset e)) (withoutReset events) = true.
Proof.
  unfold withoutReset. apply forallb_forall. intros e He.
  apply filter_In in He. apply He.
Qed.

(** The action button either does nothing (while disabled) or starts
    a swing; it has no other effect, whatever its caption. *)
Lemma action_button_always_hits (c : Component) :
  clickActionButton c = c
  \/ state (physicsRef (clickActionButton c)) = swinging.
Proof.
  unfold clickActionButton. destruct (buttonDisabled c);
    [left | right]; reflexivity.
Qed.

(** The depth never runs more than one drive step ahead of the
    target. *)
Lemma handle_depth_bound (e : Event) (c : Component) :
  0 <= maxDepth (physicsRef c)
  /\ nailDepth (physicsRef c) < maxDepth (physicsRef c) + 5 ->
  0 <= maxDepth (physicsRef (handle e c))
  /\ nailDepth (physicsRef (handle e c))
     < maxDepth (physicsRef (handle e c)) + 5.
Proof.
  intros Hb. destruct c as [[st a d md f] sim m s]. cbn in Hb.
  destruct e; cbn; try exact Hb; try lra.
  - pose proof (strikeDepth_range m s) as Hd. unfold strikeDepth in Hd.
    unfold update, step.
    cbn [state hammerAngle nailDepth maxDepth forceMagnitude
         physicsRef massOption speedOption simState].
    destruct st; split_cmp;
      cbn [state hammerAngle nailDepth maxDepth forceMagnitude
           physicsRef massOption speedOption simState]; lra.
  - unfold clickActionButton. destruct (buttonDisabled _); cbn; exact Hb.
Qed.

Lemma run_depth_bound (events : list Event) :
  0 <= maxDepth (physicsRef (run events initial))
  /\ nailDepth (physicsRef (run events initial))
     < maxDepth (physicsRef (run events initial)) + 5.
Proof.
  assert (Hgen : forall c,
    0 <= maxDepth (physicsRef c)
    /\ nailDepth (physicsRef c) < maxDepth (physicsRef c) + 5 ->
    0 <= maxDepth (physicsRef (run events c))
    /\ nailDepth (physicsRef (run events c))
       < maxDepth (physicsRef (run events c)) + 5).
  { induction events as [ | e events IH]; intros c Hc; [exact Hc | ].
    cbn [run]. apply IH, handle_depth_bound, Hc. }
  apply Hgen. cbn. lra.
Qed.

End HammerMachine.

Lemma default_selections (n : nat) :
  Hammer.run (Hammer.ClickAction :: Hammer.frames n) Hammer.initial
  = Hammer.run (Hammer.hitAndWait Hammer.massMedium Hammer.speedMedium n)
      Hammer.initial.
Proof. reflexivity. Qed.

(** The strike with the default selections, in numbers: impulse
    [|5 * 0.1| = 0.5], target depth [0.4], arrow length [50]; contact
    after 5 frames, the nail at 5 one frame later, at 0.4 in Pause. *)
Example medium_strike_in_numbers :
  let at_frame n :=
    Hammer.physicsRef
      (Hammer.run (Hammer.ClickAction :: Hammer.frames n) Hammer.initial) in
  Hammer.state (at_frame 5%nat) = Hammer.contact
  /\ Hammer.nailDepth (at_frame 5%nat) = 0
  /\ Hammer.maxDepth (at_frame 5%nat) = 0.4
  /\ Hammer.forceMagnitude (at_frame 5%nat) = 50
  /\ Hammer.state (at_frame 6%nat) = Hammer.contact
  /\ Hammer.nailDepth (at_frame 6%nat) = 5
  /\ Hammer.state (at_frame 7%nat) = Hammer.pause
  /\ Hammer.nailDepth (at_frame 7%nat) = 0.4.
Proof.
  intros at_frame.
  assert (Hd : Hammer.strikeDepth Hammer.massMedium Hammer.speedMedium = 0.4).
  { unfold Hammer.strikeDepth, Hammer.MASS_MAP, Hammer.SWING_SPEED_RADS.
    rewrite calculateImpulse_pos by lra.
    unfold HammerNail.calculatePenetrationDepth. min_max. }
  assert (Hf : Hammer.strikeForce Hammer.massMedium Hammer.speedMedium = 50).
  { unfold Hammer.strikeForce, Hammer.MASS_MAP, Hammer.SWING_SPEED_RADS.
    rewrite calculateImpulse_pos by lra.
    unfold HammerNail.calculateForceMagnitude. min_max. }
  pose proof (at_contact Hammer.massMedium Hammer.speedMedium) as H5.
  pose proof (at_overshoot Hammer.massMedium Hammer.speedMedium) as H6.
  pose proof (at_pause Hammer.massMedium Hammer.speedMedium) as H7.
  cbn [Hammer.framesToContact Nat.add] in H5, H6, H7.
  unfold at_frame. rewrite !default_selections, H5, H6, H7.
  unfold Hammer.firstStrike.
  cbn [Hammer.physicsRef Hammer.state Hammer.nailDepth Hammer.maxDepth
       Hammer.forceMagnitude].
  rewrite Hd, Hf. repeat split; lra.
Qed.

(** C2 (where the code departs from the cycle).  After Hit the machine
    does reach Pause, but no command leads back from there: in Pause
    the action button is enabled and captioned HIT, its handler is
    [handleHit] whatever the caption, and whatever events other than
    the full Reset follow, the machine stays in Swinging, Contact or
    Pause; it is never Idle again. *)
Theorem up_from_pause_never_idle
    (m : Hammer.MassOption) (s : Hammer.SpeedOption)
    (events : list Hammer.Event) :
  let paused :=
    Hammer.run (Hammer.hitAndWait m s (Hammer.framesToContact s + 2))
      Hammer.initial in
  Hammer.state (Hammer.physicsRef paused) = Hammer.pause
  /\ Hammer.buttonDisabled paused = false
  /\ Hammer.buttonLabel paused = "HIT"%string
  /\ Hammer.clickActionButton paused = Hammer.handleHit paused
  /\ Hammer.state (Hammer.physicsRef (Hammer.handleHit paused))
     = Hammer.swinging
  /\ Hammer.inSwing
       (Hammer.state
          (Hammer.physicsRef
             (Hammer.run (Hammer.withoutReset events) paused)))
     = true.
Proof.
  intros paused. unfold paused. rewrite at_pause.
  repeat split.
  apply run_keeps_swing; [apply withoutReset_clean | reflexivity].
Qed.

(** The same for the plain scenario: press the button in Pause and
    wait [n] frames. *)
Corollary press_in_pause_and_wait
    (m : Hammer.MassOption) (s : Hammer.SpeedOption) (n : nat) :
  Hammer.inSwing
    (Hammer.state
       (Hammer.physicsRef
          (Hammer.run (Hammer.ClickAction :: Hammer.frames n)
             (Hammer.run
                (Hammer.hitAndWait m s (Hammer.framesToContact s + 2))
                Hammer.initial))))
  = true.
Proof.
  rewrite at_pause. apply run_keeps_swing; [ | reflexivity].
  cbn [forallb Hammer.isReset negb andb]. unfold Hammer.frames.
  induction n as [ | n IH]; [reflexivity | exact IH].
Qed.

(** C4 (where the code departs from the clamp).  In the first strike,
    whatever the mass and the speed, the frame after the impact puts
    the nail at depth 5 in Contact, above [maxDepth], and the next
    frame lowers it to [maxDepth] on entering Pause: the depth both
    exceeds the target and decreases within the swing. *)
Theorem nail_overshoots_then_snaps_back
    (m : Hammer.MassOption) (s : Hammer.SpeedOption) :
  let driven :=
    Hammer.physicsRef
      (Hammer.run (Hammer.hitAndWait m s (Hammer.framesToContact s + 1))
         Hammer.initial) in
  let settled :=
    Hammer.physicsRef
      (Hammer.run (Hammer.hitAndWait m s (Hammer.framesToContact s + 2))
         Hammer.initial) in
  Hammer.state driven = Hammer.contact
  /\ Hammer.nailDepth driven = 5
  /\ Hammer.maxDepth driven < Hammer.nailDepth driven
  /\ Hammer.state settled = Hammer.pause
  /\ Hammer.maxDepth settled = Hammer.maxDepth driven
  /\ Hammer.nailDepth settled < Hammer.nailDepth driven.
Proof.
  intros driven settled. unfold driven, settled.
  rewrite at_overshoot, at_pause.
  pose proof (strikeDepth_range m s) as Hd.
  unfold Hammer.firstStrike.
  cbn [Hammer.physicsRef Hammer.state Hammer.nailDepth Hammer.maxDepth].
  repeat split; lra.
Qed.

(** C10.  Whatever the user does and however many frames pass after
    mounting, the phase is never [resetting], neither in the physics
    record nor in the UI mirror: Hit assigns [swinging], Reset assigns
    [idle], and [update] only assigns [contact], [pause] or (from
    [resetting]) [idle].  So [update] never runs its [resetting]
    branch. *)
Theorem resetting_is_unreachable (events : list Hammer.Event) :
  Hammer.state (Hammer.physicsRef (Hammer.run events Hammer.initial))
    <> Hammer.resetting
  /\ Hammer.simState (Hammer.run events Hammer.initial) <> Hammer.resetting.
Proof.
  assert (Hphys : forall c,
    Hammer.state (Hammer.physicsRef c) <> Hammer.resetting ->
    Hammer.state (Hammer.physicsRef (Hammer.run events c))
      <> Hammer.resetting).
  { induction events as [ | e events IH]; intros c Hc; [exact Hc | ].
    cbn [Hammer.run]. apply IH, handle_never_resetting, Hc. }
  assert (Hnow :
    Hammer.state (Hammer.physicsRef (Hammer.run events Hammer.initial))
      <> Hammer.resetting) by (apply Hphys; discriminate).
  split; [exact Hnow | ].
  rewrite sim_state_mirrors by reflexivity. exact Hnow.
Qed.

Lemma resetting_is_unreachable_witness :
  Hammer.state
    (Hammer.physicsRef
       (Hammer.run [Hammer.ClickAction; Hammer.Frame; Hammer.ClickReset]
          Hammer.initial))
    <> Hammer.resetting
  /\ Hammer.simState
       (Hammer.run [Hammer.ClickAction; Hammer.Frame; Hammer.ClickReset]
          Hammer.initial)
     <> Hammer.resetting.
Proof.
  exact (resetting_is_unreachable
           [Hammer.ClickAction; Hammer.Frame; Hammer.ClickReset]).
Defined.

(** * Further properties of the code *)

(** ** Vector helpers *)

(** X2.  Inverting a vector is scaling it by -1; it keeps the length
    and undoes itself.  (All three hold bit for bit in the code's
    doubles: negation and multiplication by -1 are exact.) *)
Theorem invert_is_scaling_by_minus_one (v : Vector2D) :
  Vector.invert v = Vector.scale v (-1)
  /\ Vector.magnitude (Vector.invert v) = Vector.magnitude v
  /\ Vector.invert (Vector.invert v) = v.
Proof.
  split; [ | split].
  - unfold Vector.invert, Vector.scale. f_equal; ring.
  - unfold Vector.magnitude, Vector.invert. cbn [vx vy].
    f_equal. ring.
  - destruct v as [x y]. unfold Vector.invert. cbn [vx vy].
    f_equal; ring.
Qed.

(** ** More on the formula library *)

(** X4.  For a non-negative force, [Gravity.forceToArrowLength] with
    its default arguments stays between 20 and 180, never decreases
    when the force grows, and is pinned at 180 from force 2.25 on and
    at 20 up to force 1/36.  With explicit arguments the result never
    exceeds [max], and is at least [min] when [min <= max]. *)
Theorem forceToArrowLength_saturates (f g : R) :
  0 <= f -> f <= g ->
  20 <= Gravity.forceToArrowLength f <= 180
  /\ Gravity.forceToArrowLength f <= Gravity.forceToArrowLength g
  /\ (9 / 4 <= f -> Gravity.forceToArrowLength f = 180)
  /\ (f <= 1 / 36 -> Gravity.forceToArrowLength f = 20)
  /\ (forall scale lo hi,
        Gravity.forceToArrowLength_with f scale lo hi <= hi
        /\ (lo <= hi ->
            lo <= Gravity.forceToArrowLength_with f scale lo hi)).
Proof.
  intros Hf Hfg.
  pose proof (sqrt_le_1_alt f g Hfg) as Hmono.
  pose proof (sqrt_pos f) as Hpos.
  unfold Gravity.forceToArrowLength, Gravity.forceToArrowLength_with.
  repeat split.
  - min_max.
  - min_max.
  - min_max.
  - intros Hbig.
    assert (Hs : 3 / 2 <= sqrt f).
    { replace (3 / 2) with (sqrt (3 / 2 * (3 / 2)))
        by (apply sqrt_square; lra).
      apply sqrt_le_1_alt. lra. }
    min_max.
  - intros Hsmall.
    assert (Hs : sqrt f <= 1 / 6).
    { replace (1 / 6) with (sqrt (1 / 6 * (1 / 6)))
        by (apply sqrt_square; lra).
      apply sqrt_le_1_alt. lra. }
    min_max.
  - apply Rmin_r.
  - intros Hlh. min_max.
Qed.

Lemma forceToArrowLength_saturates_witness :
  20 <= Gravity.forceToArrowLength 1 <= 180
  /\ Gravity.forceToArrowLength 1 <= Gravity.forceToArrowLength 4.
Proof.
  destruct (forceToArrowLength_saturates 1 4) as (Hr & Hm & _);
    [lra | lra | ].
  split; [exact Hr | exact Hm].
Defined.

(** X6.  Whatever the mass and the velocity, negative ones included,
    the impulse is [|m| * |v|]; the depth computed from it lies in
    [[0, 60]] and the arrow length in [[50, 150]]. *)
Theorem strike_pipeline_bounds (m v : R) :
  HammerNail.calculateImpulse m v = Rabs m * Rabs v
  /\ HammerNail.calculateImpulse (- m) v = HammerNail.calculateImpulse m v
  /\ 0 <= HammerNail.calculatePenetrationDepth
            (HammerNail.calculateImpulse m v) <= 60
  /\ 50 <= HammerNail.calculateForceMagnitude
             (HammerNail.calculateImpulse m v) <= 150.
Proof.
  pose proof (calculateImpulse_nonneg m v) as Hi.
  split; [apply Rabs_mult | ].
  split.
  - unfold HammerNail.calculateImpulse.
    replace (- m * v) with (- (m * v)) by ring. apply Rabs_Ropp.
  - split; [ | apply calculateForceMagnitude_range].
    unfold HammerNail.calculatePenetrationDepth. min_max.
Qed.

(** ** More on the hammer scenario *)

Section HammerFacts.

Import Hammer.

Lemma strikeForce_50 (m : MassOption) (s : SpeedOption) :
  strikeForce m s = 50.
Proof.
  unfold strikeForce.
  rewrite calculateImpulse_pos
    by (destruct m, s; unfold MASS_MAP, SWING_SPEED_RADS; lra).
  unfold HammerNail.calculateForceMagnitude.
  destruct m, s; unfold MASS_MAP, SWING_SPEED_RADS; min_max.
Qed.

Lemma strikeDepth_linear (m : MassOption) (s : SpeedOption) :
  strikeDepth m s = MASS_MAP m * SWING_SPEED_RADS s * 0.8.
Proof.
  unfold strikeDepth.
  rewrite calculateImpulse_pos
    by (destruct m, s; unfold MASS_MAP, SWING_SPEED_RADS; lra).
  unfold HammerNail.calculatePenetrationDepth.
  destruct m, s; unfold MASS_MAP, SWING_SPEED_RADS; min_max.
Qed.

Lemma impact_below_initial : HAMMER_IMPACT_ANGLE < INITIAL_HAMMER_ANGLE.
Proof.
  pose proof PI_bounds. unfold HAMMER_IMPACT_ANGLE, INITIAL_HAMMER_ANGLE. lra.
Qed.

Ltac hammer_fields :=
  cbn [state hammerAngle nailDepth maxDepth forceMagnitude
       physicsRef massOption speedOption simState].

Ltac wf_done :=
  repeat match goal with
  | |- _ /\ _ => split
  | |- _ -> _ => intro
  | H : _ \/ _ |- _ => destruct H
  | H : _ /\ _ |- _ => destruct H
  end;
  try discriminate; try reflexivity; try assumption; try lra;
  try (left; lra); try (right; lra); try tauto.

Lemma handle_wellFormed (e : Event) (c : Component) :
  wellFormed c -> wellFormed (handle e c).
Proof.
  unfold wellFormed. destruct c as [[st a d md f] sim m s]. hammer_fields.
  intros (Hsim & Hnr & Hd & Hmd & Hb & Ha & Hf & Hcp & Hp & Hi).
  subst sim.
  pose proof (strikeDepth_range m s) as Hsd. unfold strikeDepth in Hsd.
  pose proof (strikeForce_50 m s) as Hsf. unfold strikeForce in Hsf.
  pose proof (SWING_SPEED_RADS_pos s) as Hsp.
  pose proof impact_below_initial as Hii.
  destruct e; cbn [handle].
  - (* a frame *)
    unfold update, step. hammer_fields.
    destruct st.
    + specialize (Hi eq_refl). injection Hi as -> -> -> ->.
      hammer_fields. wf_done.
    + split_cmp; hammer_fields; wf_done.
    + destruct (Hcp (or_introl eq_refl)) as (Hf50 & Haimp & Hmdpos).
      split_cmp; hammer_fields; wf_done.
    + destruct (Hcp (or_intror eq_refl)) as (Hf50 & Haimp & Hmdpos).
      specialize (Hp eq_refl). hammer_fields. wf_done.
    + contradiction Hnr; reflexivity.
  - (* the action button *)
    unfold clickActionButton, buttonDisabled, handleHit. hammer_fields.
    destruct st; hammer_fields; wf_done.
  - (* the full reset *)
    unfold handleReset, initialPhysics. hammer_fields. wf_done.
  - hammer_fields. wf_done.
  - hammer_fields. wf_done.
Qed.

Lemma initial_wellFormed : wellFormed initial.
Proof.
  unfold wellFormed, initial, initialPhysics. hammer_fields.
  pose proof impact_below_initial. wf_done.
Qed.

Lemma hammer_run_wellFormed (events : list Event) :
  wellFormed (run events initial).
Proof.
  assert (Hgen : forall c, wellFormed c -> wellFormed (run events c)).
  { induction events as [ | e events IH]; intros c Hc; [exact Hc | ].
    cbn [run]. apply IH, handle_wellFormed, Hc. }
  apply Hgen, initial_wellFormed.
Qed.

End HammerFacts.

Section HammerReachable.

Import Hammer.

Lemma update_pristine (c : Component) :
  physicsRef c = initialPhysics -> update c = c.
Proof.
  intros H. destruct c as [p sim m s]. cbn in H. subst p. reflexivity.
Qed.

Lemma frames_pristine (n : nat) (c : Component) :
  physicsRef c = initialPhysics -> run (frames n) c = c.
Proof.
  intros H. induction n as [ | n IH]; [reflexivity | ].
  cbn [frames repeat run handle]. rewrite update_pristine by exact H.
  exact IH.
Qed.

(** One further strike from Contact or Pause: the button starts a
    swing and the very next frame lands it. *)
Lemma rehit_once (c : Component) :
  simState c = state (physicsRef c) ->
  state (physicsRef c) = contact \/ state (physicsRef c) = pause ->
  hammerAngle (physicsRef c) <= HAMMER_IMPACT_ANGLE ->
  run [ClickAction; Frame] c
  = mkComponent
      (mkAnimationState contact
         (hammerAngle (physicsRef c) - SWING_SPEED_RADS (speedOption c))
         (nailDepth (physicsRef c))
         (maxDepth (physicsRef c)
          + strikeDepth (massOption c) (speedOption c))
         (strikeForce (massOption c) (speedOption c)))
      contact (massOption c) (speedOption c).
Proof.
  intros Hsim Hst Ha.
  pose proof (SWING_SPEED_RADS_pos (speedOption c)) as Hsp.
  destruct c as [[st a d md f] sim m s].
  cbn [physicsRef simState state hammerAngle speedOption] in *. subst sim.
  cbn [run handle].
  assert (Hclick :
    clickActionButton
      (mkComponent (mkAnimationState st a d md f) st m s)
    = mkComponent (mkAnimationState swinging a d md f) swinging m s).
  { destruct Hst as [-> | ->]; reflexivity. }
  rewrite Hclick.
  rewrite update_swing_impact; [reflexivity | reflexivity | cbn; lra].
Qed.

Lemma rehits_from (n : nat) : forall c : Component,
  simState c = state (physicsRef c) ->
  state (physicsRef c) = contact \/ state (physicsRef c) = pause ->
  hammerAngle (physicsRef c) <= HAMMER_IMPACT_ANGLE ->
  forceMagnitude (physicsRef c) = 50 ->
  let c' := run (rehits n) c in
  hammerAngle (physicsRef c')
  = hammerAngle (physicsRef c) - INR n * SWING_SPEED_RADS (speedOption c)
  /\ maxDepth (physicsRef c')
     = maxDepth (physicsRef c)
       + INR n * strikeDepth (massOption c) (speedOption c)
  /\ nailDepth (physicsRef c') = nailDepth (physicsRef c)
  /\ forceMagnitude (physicsRef c') = 50.
Proof.
  induction n as [ | n IH]; intros c Hsim Hst Ha Hf c'.
  - unfold c'. cbn [rehits run INR]. repeat split; lra.
  - pose proof (SWING_SPEED_RADS_pos (speedOption c)) as Hsp.
    unfold c'.
    change (rehits (S n)) with ([ClickAction; Frame] ++ rehits n).
    rewrite run_app, (rehit_once c Hsim Hst Ha).
    match goal with |- context [run (rehits n) ?c1] =>
      destruct (IH c1) as (Hang & Hmax & Hnail & Hforce)
    end.
    + reflexivity.
    + left. reflexivity.
    + cbn. lra.
    + cbn. apply strikeForce_50.
    + cbn [physicsRef hammerAngle maxDepth nailDepth forceMagnitude
           massOption speedOption] in *.
      rewrite Hang, Hmax, Hnail, Hforce, S_INR.
      repeat split; try reflexivity; ring.
Qed.

Lemma rehits_snoc (n : nat) :
  rehits (S n) = rehits n ++ [ClickAction; Frame].
Proof.
  induction n as [ | n IH]; [reflexivity | ].
  change (rehits (S (S n))) with (ClickAction :: Frame :: rehits (S n)).
  rewrite IH at 1. reflexivity.
Qed.

(** Further strikes keep the machine where a further strike can be
    made, and leave the selections alone. *)
Lemma rehits_keep (n : nat) : forall c : Component,
  simState c = state (physicsRef c) ->
  state (physicsRef c) = contact \/ state (physicsRef c) = pause ->
  hammerAngle (physicsRef c) <= HAMMER_IMPACT_ANGLE ->
  let c' := run (rehits n) c in
  simState c' = state (physicsRef c')
  /\ (state (physicsRef c') = contact \/ state (physicsRef c') = pause)
  /\ hammerAngle (physicsRef c') <= HAMMER_IMPACT_ANGLE
  /\ massOption c' = massOption c
  /\ speedOption c' = speedOption c.
Proof.
  induction n as [ | n IH]; intros c Hsim Hst Ha c'.
  - unfold c'. cbn [rehits run]. repeat split; assumption.
  - pose proof (SWING_SPEED_RADS_pos (speedOption c)) as Hsp.
    unfold c'.
    change (rehits (S n)) with ([ClickAction; Frame] ++ rehits n).
    rewrite run_app, (rehit_once c Hsim Hst Ha).
    match goal with |- context [run (rehits n) ?c1] =>
      destruct (IH c1) as (Hs' & Hst' & Ha' & Hm' & Hsp')
    end.
    + reflexivity.
    + left. reflexivity.
    + cbn. lra.
    + cbn [massOption speedOption] in Hm', Hsp'.
      repeat split; assumption.
Qed.

End HammerReachable.

(** X7.  Whatever mass and speed are selected and whatever has
    happened since mounting, the hammer scene draws its two force
    arrows exactly in Pause and both with length exactly 50: for every
    selection [impulse * 1.5] lies below the lower clamp of
    [calculateForceMagnitude]. *)
Theorem hammer_arrows_always_50 (events : list Hammer.Event) (ready : bool) :
  (forall m s, Hammer.strikeForce m s = 50)
  /\ map arrowLength
       (Hammer.drawScene ready
          (Hammer.physicsRef (Hammer.run events Hammer.initial)))
     = match Hammer.state
               (Hammer.physicsRef (Hammer.run events Hammer.initial)) with
       | Hammer.pause => if ready then [50; 50] else []
       | _ => []
       end.
Proof.
  split; [exact strikeForce_50 | ].
  rewrite hammer_arrow_lengths.
  destruct (hammer_run_wellFormed events)
    as (_ & _ & _ & _ & _ & _ & _ & Hcp & _).
  destruct (Hammer.state _); try reflexivity.
  destruct Hcp as (-> & _); [right; reflexivity | reflexivity].
Qed.

(** X8.  The depth a strike adds is [mass * speed * 0.8], as the
    code computes it, for each of the nine selections: the cap of 60
    is never reached, every increment staying below one drive step
    (5).  A selection with at least the mass and at least the speed
    of another adds at least as much depth. *)
Theorem strike_depth_linear_and_monotone
    (m m' : Hammer.MassOption) (s s' : Hammer.SpeedOption) :
  Hammer.MASS_MAP m <= Hammer.MASS_MAP m' ->
  Hammer.SWING_SPEED_RADS s <= Hammer.SWING_SPEED_RADS s' ->
  Hammer.strikeDepth m s
  = Hammer.MASS_MAP m * Hammer.SWING_SPEED_RADS s * 0.8
  /\ Hammer.strikeDepth m s <= Hammer.strikeDepth m' s'
  /\ Hammer.strikeDepth m' s' < 5.
Proof.
  intros Hm Hs. rewrite !strikeDepth_linear.
  pose proof (SWING_SPEED_RADS_pos s).
  assert (0 < Hammer.MASS_MAP m) by (destruct m; unfold Hammer.MASS_MAP; lra).
  repeat split; [nra | ].
  rewrite <- strikeDepth_linear.
  pose proof (strikeDepth_range m' s'). lra.
Qed.

Lemma strike_depth_linear_and_monotone_witness :
  Hammer.strikeDepth Hammer.massLight Hammer.speedSlow
  <= Hammer.strikeDepth Hammer.massHeavy Hammer.speedFast.
Proof.
  apply (strike_depth_linear_and_monotone
           Hammer.massLight Hammer.massHeavy
           Hammer.speedSlow Hammer.speedFast);
    unfold Hammer.MASS_MAP, Hammer.SWING_SPEED_RADS; lra.
Defined.

(** X9.  In the hammer component the [simState] the markup reads
    always equals the phase in the physics ref, whatever events have
    been delivered since mounting. *)
Theorem hammer_ui_phase_in_sync (events : list Hammer.Event) :
  Hammer.simState (Hammer.run events Hammer.initial)
  = Hammer.state (Hammer.physicsRef (Hammer.run events Hammer.initial)).
Proof. apply sim_state_mirrors. reflexivity. Qed.

(** X10.  In every state the hammer component can reach, the nail
    depth is non-negative and less than one drive step (5) above
    [maxDepth], [maxDepth] is non-negative, and in Pause the depth
    equals [maxDepth]. *)
Theorem nail_depth_within_one_step (events : list Hammer.Event) :
  let p := Hammer.physicsRef (Hammer.run events Hammer.initial) in
  0 <= Hammer.nailDepth p
  /\ 0 <= Hammer.maxDepth p
  /\ Hammer.nailDepth p < Hammer.maxDepth p + 5
  /\ (Hammer.state p = Hammer.pause ->
      Hammer.nailDepth p = Hammer.maxDepth p).
Proof.
  intros p.
  destruct (hammer_run_wellFormed events)
    as (_ & _ & Hd & Hmd & Hb & _ & _ & _ & Hp & _).
  repeat split; assumption.
Qed.

Lemma nail_depth_within_one_step_witness :
  let p :=
    Hammer.physicsRef
      (Hammer.run (Hammer.hitAndWait Hammer.massHeavy Hammer.speedFast 6)
         Hammer.initial) in
  Hammer.nailDepth p = Hammer.maxDepth p.
Proof.
  intros p.
  apply (nail_depth_within_one_step
           (Hammer.hitAndWait Hammer.massHeavy Hammer.speedFast 6)).
  unfold p.
  change 6%nat with (Hammer.framesToContact Hammer.speedFast + 2)%nat.
  rewrite at_pause. reflexivity.
Defined.

(** X11.  Idle always means pristine: whenever the phase is Idle the
    physics record is the initial one.  And without a click nothing
    moves in Idle or in Pause: any number of frames leaves the
    component as it is. *)
Theorem idle_is_pristine_and_rest_is_still
    (events : list Hammer.Event) (n : nat) :
  let c := Hammer.run events Hammer.initial in
  (Hammer.state (Hammer.physicsRef c) = Hammer.idle ->
     Hammer.physicsRef c = Hammer.initialPhysics)
  /\ (Hammer.state (Hammer.physicsRef c) = Hammer.idle
      \/ Hammer.state (Hammer.physicsRef c) = Hammer.pause ->
      Hammer.run (Hammer.frames n) c = c).
Proof.
  intros c.
  destruct (hammer_run_wellFormed events)
    as (_ & _ & _ & _ & _ & _ & _ & _ & _ & Hi).
  fold c in Hi. split; [exact Hi | ].
  intros [Hidle | Hpause].
  - apply frames_pristine, Hi, Hidle.
  - apply frames_pause, Hpause.
Qed.

Lemma idle_is_pristine_and_rest_is_still_witness :
  Hammer.run (Hammer.frames 3)
    (Hammer.run [Hammer.ClickReset] Hammer.initial)
  = Hammer.run [Hammer.ClickReset] Hammer.initial.
Proof.
  apply (idle_is_pristine_and_rest_is_still [Hammer.ClickReset] 3).
  left. reflexivity.
Defined.

(** X12.  After Hit from the mounted component, with mass [m] and
    speed [s] selected, the phase after [k] frames is Swinging for
    [k < framesToContact s] (10, 5 and 4 frames for slow, medium and
    fast), Contact for the next two frames, and Pause from then on. *)
Theorem first_strike_timeline
    (m : Hammer.MassOption) (s : Hammer.SpeedOption) (k : nat) :
  Hammer.state
    (Hammer.physicsRef (Hammer.run (Hammer.hitAndWait m s k) Hammer.initial))
  = if (k <? Hammer.framesToContact s)%nat then Hammer.swinging
    else if (k <? Hammer.framesToContact s + 2)%nat then Hammer.contact
    else Hammer.pause.
Proof. apply hit_reaches_contact_then_pause. Qed.

(** X13.  Strikes accumulate.  Once the first strike has come to
    rest, every further strike (the button, then one frame) lands in
    that single frame: it puts the machine in Contact, adds the depth
    of one strike to [maxDepth], lowers the hammer by one swing step,
    sets the arrow length to 50, and leaves the nail where it was (the
    nail is driven only by frames spent in Contact). *)
Theorem further_strike_adds_one_depth
    (m : Hammer.MassOption) (s : Hammer.SpeedOption) (n : nat) :
  let before :=
    Hammer.physicsRef
      (Hammer.run
         (Hammer.hitAndWait m s (Hammer.framesToContact s + 2)
          ++ Hammer.rehits n)
         Hammer.initial) in
  let after :=
    Hammer.physicsRef
      (Hammer.run
         (Hammer.hitAndWait m s (Hammer.framesToContact s + 2)
          ++ Hammer.rehits (S n))
         Hammer.initial) in
  Hammer.state after = Hammer.contact
  /\ Hammer.maxDepth after
     = Hammer.maxDepth before + Hammer.strikeDepth m s
  /\ Hammer.hammerAngle after
     = Hammer.hammerAngle before - Hammer.SWING_SPEED_RADS s
  /\ Hammer.nailDepth after = Hammer.nailDepth before
  /\ Hammer.forceMagnitude after = 50.
Proof.
  intros before after. unfold before, after.
  rewrite rehits_snoc, !run_app, at_pause.
  destruct (swing_reaches_impact s) as [_ Himp].
  destruct (rehits_keep n
              (Hammer.firstStrike m s Hammer.pause
                 (0 + Hammer.strikeDepth m s)))
    as (Hsim & Hst & Ha & Hm & Hs);
    [reflexivity | right; reflexivity | exact Himp | ].
  rewrite (rehit_once _ Hsim Hst Ha), Hm, Hs.
  unfold Hammer.firstStrike.
  cbn [Hammer.physicsRef Hammer.state Hammer.maxDepth Hammer.hammerAngle
       Hammer.nailDepth Hammer.forceMagnitude Hammer.massOption
       Hammer.speedOption].
  repeat split. apply strikeForce_50.
Qed.

(** X14.  The hammer angle never rises above the initial raised angle
    and is at or below the impact angle throughout Contact and Pause;
    but it has no lower bound: every further strike lowers it by one
    more swing step, so any bound is eventually undercut. *)
Theorem hammer_angle_bounded_above_only (events : list Hammer.Event) (B : R) :
  let p := Hammer.physicsRef (Hammer.run events Hammer.initial) in
  Hammer.hammerAngle p <= Hammer.INITIAL_HAMMER_ANGLE
  /\ (Hammer.state p = Hammer.contact \/ Hammer.state p = Hammer.pause ->
      Hammer.hammerAngle p <= Hammer.HAMMER_IMPACT_ANGLE)
  /\ exists strikes : list Hammer.Event,
       Hammer.hammerAngle
         (Hammer.physicsRef (Hammer.run strikes Hammer.initial)) < B.
Proof.
  intros p.
  destruct (hammer_run_wellFormed events)
    as (_ & _ & _ & _ & _ & Ha & _ & Hcp & _).
  split; [exact Ha | split; [intros H; apply Hcp, H | ]].
  pose proof (SWING_SPEED_RADS_pos Hammer.speedMedium) as Hsp.
  destruct (INR_unbounded
              ((Hammer.impactAngle Hammer.speedMedium - B)
               / Hammer.SWING_SPEED_RADS Hammer.speedMedium)) as [n Hn].
  exists (Hammer.hitAndWait Hammer.massMedium Hammer.speedMedium
            (Hammer.framesToContact Hammer.speedMedium + 2)
          ++ Hammer.rehits n).
  rewrite run_app, at_pause.
  destruct (swing_reaches_impact Hammer.speedMedium) as [_ Himp].
  destruct (rehits_from n
              (Hammer.firstStrike Hammer.massMedium Hammer.speedMedium
                 Hammer.pause
                 (0 + Hammer.strikeDepth Hammer.massMedium
                        Hammer.speedMedium)))
    as (Hang & _).
  - reflexivity.
  - right. reflexivity.
  - exact Himp.
  - apply strikeForce_50.
  - rewrite Hang. unfold Hammer.firstStrike.
    cbn [Hammer.physicsRef Hammer.hammerAngle Hammer.speedOption].
    apply (Rmult_lt_compat_r _ _ _ Hsp) in Hn.
    unfold Rdiv in Hn. rewrite Rmult_assoc, Rinv_l in Hn by lra.
    lra.
Qed.

Lemma hammer_angle_bounded_above_only_witness :
  let p :=
    Hammer.physicsRef
      (Hammer.run (Hammer.hitAndWait Hammer.massLight Hammer.speedSlow 12)
         Hammer.initial) in
  Hammer.hammerAngle p <= Hammer.HAMMER_IMPACT_ANGLE.
Proof.
  intros p.
  apply (hammer_angle_bounded_above_only
           (Hammer.hitAndWait Hammer.massLight Hammer.speedSlow 12) 0).
  right. unfold p.
  change 12%nat with (Hammer.framesToContact Hammer.speedSlow + 2)%nat.
  rewrite at_pause. reflexivity.
Defined.

(** ** More on the gravity scenario *)

Section GravityFacts.

Import GravitySim.

Ltac gravity_fields :=
  cbn [state moonX moonY moonAngle moonDistance moonVelocity forceMagnitude
       pathPoints physicsRef simState isDraggingRef earthMass moonMass
       showForceArrows showOrbitalPath withPhysics].

Lemma recordPath_length (points : list Vector2D) (p : Vector2D) :
  (List.length points <= S PATH_CAP)%nat ->
  (List.length (recordPath points p) <= S PATH_CAP)%nat.
Proof.
  intros H. unfold recordPath. rewrite length_app. cbn [List.length].
  destruct (Nat.ltb_spec PATH_CAP (List.length points)) as [Hfull | Hroom].
  - destruct points as [ | q points]; cbn [tl List.length] in *; lia.
  - lia.
Qed.

Lemma MASS_MAP_range (k : MassKey) : 1 / 2 <= MASS_MAP k <= 2.
Proof. destruct k; unfold MASS_MAP; lra. Qed.

Lemma force_in_range (e m : MassKey) (d : R) :
  MIN_DISTANCE <= d <= MAX_DISTANCE ->
  0 < calculateGravitationalForce (MASS_MAP e) (MASS_MAP m) d <= 8 / 3.
Proof.
  unfold MIN_DISTANCE, MAX_DISTANCE. intros Hd.
  unfold calculateGravitationalForce, GRAVITATIONAL_CONSTANT.
  destruct (Rle_dec d 0); [lra | ].
  pose proof (MASS_MAP_range e) as He. pose proof (MASS_MAP_range m) as Hm.
  assert (Hdd : 22500 <= d * d) by nra.
  assert (Hnum : 0 < 15000 * MASS_MAP e * MASS_MAP m <= 60000) by nra.
  split.
  - apply Rdiv_lt_0_compat; lra.
  - apply (Rmult_le_reg_r (d * d)); [lra | ].
    unfold Rdiv. rewrite Rmult_assoc, Rinv_l by lra. nra.
Qed.

Lemma velocity_positive (e : MassKey) (d : R) :
  0 < d -> 0 < calculateOrbitalVelocity (MASS_MAP e) d.
Proof.
  intros Hd. unfold calculateOrbitalVelocity, GRAVITATIONAL_CONSTANT.
  destruct (Rle_dec d 0); [lra | ].
  pose proof (MASS_MAP_range e) as He.
  apply sqrt_lt_R0, Rdiv_lt_0_compat; nra.
Qed.

Lemma handle_wellFormed_gravity (ev : Event) (c : Component) :
  wellFormed c -> wellFormed (handle ev c).
Proof.
  unfold wellFormed.
  destruct c as [[st x y t d v f pts] sim drag em mm sa sp]. gravity_fields.
  intros (Hsim & Hd & Hlen & Hf & Hv). subst sim.
  destruct ev; cbn [handle].
  - (* a frame *)
    unfold update, updatePhysics. gravity_fields.
    destruct st; gravity_fields; try (repeat split; tauto).
    pose proof (force_in_range em mm d Hd) as HF.
    assert (Hpos : 0 < d) by (unfold MIN_DISTANCE in Hd; lra).
    pose proof (velocity_positive em d Hpos) as HV.
    repeat split; try tauto; try lra.
    apply recordPath_length, Hlen.
  - unfold clickPlay, handlePlay, setPhase. gravity_fields.
    destruct st; gravity_fields; repeat split; tauto.
  - unfold clickPause, handlePause, setPhase. gravity_fields.
    destruct st; gravity_fields; repeat split; tauto.
  - unfold handleReset, initialPhysics. gravity_fields.
    unfold MIN_DISTANCE, MAX_DISTANCE, INITIAL_DISTANCE.
    repeat split; try lra; cbn [List.length]; lia.
  - unfold handleCanvasMouseDown.
    destruct canvas as [rect | ]; [ | gravity_fields; repeat split; tauto].
    destruct (canvasPoint rect e) as [px py]. gravity_fields.
    destruct (Rlt_dec _ _); gravity_fields; repeat split; tauto.
  - unfold handleCanvasMouseMove. gravity_fields.
    destruct drag; cbn [negb]; [ | gravity_fields; repeat split; tauto].
    destruct canvas as [rect | ]; [ | gravity_fields; repeat split; tauto].
    destruct (canvasPoint rect e) as [px py]. gravity_fields.
    repeat split; try tauto.
    + apply clamp_in_range.
    + apply clamp_in_range.
  - unfold handleCanvasMouseUp. gravity_fields. repeat split; tauto.
  - unfold setEarthMass. gravity_fields. repeat split; tauto.
  - unfold setMoonMass. gravity_fields. repeat split; tauto.
  - unfold setShowForceArrows. gravity_fields. repeat split; tauto.
  - unfold setShowOrbitalPath. gravity_fields. repeat split; tauto.
Qed.

Lemma gravity_initial_wellFormed : wellFormed initial.
Proof.
  unfold wellFormed, initial, initialPhysics. gravity_fields.
  unfold MIN_DISTANCE, MAX_DISTANCE, INITIAL_DISTANCE.
  repeat split; try lra; cbn [List.length]; lia.
Qed.

Lemma gravity_run_wellFormed (events : list Event) :
  wellFormed (run events initial).
Proof.
  assert (Hgen : forall c, wellFormed c -> wellFormed (run events c)).
  { induction events as [ | ev events IH]; intros c Hc; [exact Hc | ].
    cbn [run]. apply IH, handle_wellFormed_gravity, Hc. }
  apply Hgen, gravity_initial_wellFormed.
Qed.

End GravityFacts.


(** X16.  The trail never holds more than 501 points, whatever events
    are delivered, and the full reset empties it. *)
Theorem trail_never_exceeds_501 (events : list GravitySim.Event) :
  (List.length
     (GravitySim.pathPoints
        (GravitySim.physicsRef (GravitySim.run events GravitySim.initial)))
   <= 501)%nat
  /\ GravitySim.pathPoints
       (GravitySim.physicsRef
          (GravitySim.run (events ++ [GravitySim.ClickReset])
             GravitySim.initial))
     = [].
Proof.
  split.
  - destruct (gravity_run_wellFormed events) as (_ & _ & Hlen & _).
    exact Hlen.
  - assert (Hgen : forall c,
      GravitySim.pathPoints
        (GravitySim.physicsRef
           (GravitySim.run (events ++ [GravitySim.ClickReset]) c)) = []).
    { induction events as [ | ev events IH]; intros c; [reflexivity | ].
      cbn [app GravitySim.run]. apply IH. }
    apply Hgen.
Qed.

(** X17.  The force arrows of the gravity scene are at most 8/3
    pixels long: [forceMagnitude] is used as the length in pixels
    unscaled, and with masses up to 2 and distances from 150 it never
    exceeds [15000 * 2 * 2 / 150 ^ 2]; that value is reached. *)
Theorem gravity_arrows_at_most_8_3
    (events : list GravitySim.Event) (ready : bool) :
  let c := GravitySim.run events GravitySim.initial in
  0 <= GravitySim.forceMagnitude (GravitySim.physicsRef c) <= 8 / 3
  /\ Forall (fun a => 0 <= arrowLength a <= 8 / 3)
       (GravitySim.drawScene ready (GravitySim.showForceArrows c)
          (GravitySim.physicsRef c))
  /\ GravitySim.calculateGravitationalForce
       (GravitySim.MASS_MAP GravitySim.key2)
       (GravitySim.MASS_MAP GravitySim.key2) GravitySim.MIN_DISTANCE
     = 8 / 3.
Proof.
  intros c.
  destruct (gravity_run_wellFormed events) as (_ & _ & _ & Hf & _).
  fold c in Hf. split; [exact Hf | split].
  - unfold GravitySim.drawScene.
    destruct ready, (GravitySim.showForceArrows c); cbn [negb];
      repeat first [apply Forall_cons | apply Forall_nil];
      cbn [arrowLength]; exact Hf.
  - unfold GravitySim.calculateGravitationalForce, GravitySim.MASS_MAP,
      GravitySim.MIN_DISTANCE, GravitySim.GRAVITATIONAL_CONSTANT.
    destruct (Rle_dec 150 0); [lra | field].
Qed.

Section Atan2.

(** [Math.atan2 (0, 0)] is 0. *)
Lemma atan2_origin : atan2 0 0 = 0.
Proof.
  unfold atan2.
  destruct (Rlt_dec 0 0); [lra | ].
  destruct (Rlt_dec 0 0); [lra | reflexivity].
Qed.

End Atan2.

(** X19.  A pointer move during a drag stores the polar coordinates
    of the pointer about the Earth's centre, with the distance
    clamped, and the position computed from them; it leaves the
    phase, the velocity, the force and the trail alone, so the force
    shown is the one of the last running frame until the next one.
    With the pointer on the Earth's centre itself the moon is put
    straight to the right of it, at the minimum distance. *)
Theorem drag_stores_polar_position (rect : GravitySim.DOMRect)
    (e : GravitySim.MouseEvent) (c : GravitySim.Component) :
  GravitySim.isDraggingRef c = true ->
  let x := fst (GravitySim.canvasPoint rect e) in
  let y := snd (GravitySim.canvasPoint rect e) in
  let old := GravitySim.physicsRef c in
  let p :=
    GravitySim.physicsRef
      (GravitySim.handleCanvasMouseMove (Some rect) e c) in
  GravitySim.moonAngle p
  = atan2 (y - GravitySim.EARTH_Y) (x - GravitySim.EARTH_X)
  /\ GravitySim.moonX p
     = GravitySim.EARTH_X
       + GravitySim.moonDistance p * cos (GravitySim.moonAngle p)
  /\ GravitySim.moonY p
     = GravitySim.EARTH_Y
       + GravitySim.moonDistance p * sin (GravitySim.moonAngle p)
  /\ GravitySim.state p = GravitySim.state old
  /\ GravitySim.moonVelocity p = GravitySim.moonVelocity old
  /\ GravitySim.forceMagnitude p = GravitySim.forceMagnitude old
  /\ GravitySim.pathPoints p = GravitySim.pathPoints old
  /\ (x = GravitySim.EARTH_X -> y = GravitySim.EARTH_Y ->
      GravitySim.moonDistance p = GravitySim.MIN_DISTANCE
      /\ GravitySim.moonAngle p = 0
      /\ GravitySim.moonX p = GravitySim.EARTH_X + GravitySim.MIN_DISTANCE
      /\ GravitySim.moonY p = GravitySim.EARTH_Y).
Proof.
  intros Hdrag x y old p.
  unfold p, old, x, y, GravitySim.handleCanvasMouseMove.
  rewrite Hdrag. cbn [negb].
  destruct (GravitySim.canvasPoint rect e) as [px py]. cbn [fst snd].
  cbn [GravitySim.physicsRef GravitySim.withPhysics GravitySim.moonX
       GravitySim.moonY GravitySim.moonDistance GravitySim.moonAngle
       GravitySim.state GravitySim.moonVelocity GravitySim.forceMagnitude
       GravitySim.pathPoints].
  repeat (split; [reflexivity | ]).
  intros -> ->.
  replace (GravitySim.EARTH_X - GravitySim.EARTH_X) with 0 by ring.
  replace (GravitySim.EARTH_Y - GravitySim.EARTH_Y) with 0 by ring.
  replace (0 * 0 + 0 * 0) with 0 by ring.
  rewrite sqrt_0, atan2_origin, cos_0, sin_0.
  unfold GravitySim.MIN_DISTANCE, GravitySim.MAX_DISTANCE.
  replace (Rmax 150 (Rmin 400 0)) with 150 by min_max.
  repeat split; ring.
Qed.

Lemma drag_stores_polar_position_witness :
  let rect := GravitySim.mkDOMRect 0 0 800 600 in
  let e := GravitySim.mkMouseEvent 400 300 in
  let c :=
    GravitySim.handleCanvasMouseDown (Some rect)
      (GravitySim.mkMouseEvent 680 300) GravitySim.initial in
  let p :=
    GravitySim.physicsRef
      (GravitySim.handleCanvasMouseMove (Some rect) e c) in
  GravitySim.isDraggingRef c = true
  /\ GravitySim.moonDistance p = GravitySim.MIN_DISTANCE
  /\ GravitySim.moonAngle p = 0
  /\ GravitySim.moonX p = GravitySim.EARTH_X + GravitySim.MIN_DISTANCE
  /\ GravitySim.moonY p = GravitySim.EARTH_Y.
Proof.
  intros rect e c p.
  assert (Hdrag : GravitySim.isDraggingRef c = true).
  { unfold c, GravitySim.handleCanvasMouseDown, rect,
      GravitySim.canvasPoint. cbn.
    destruct (Rlt_dec _ _) as [_ | Hfar]; [reflexivity | ].
    exfalso. apply Hfar.
    unfold GravitySim.EARTH_X, GravitySim.EARTH_Y,
      GravitySim.INITIAL_DISTANCE, GravitySim.CANVAS_WIDTH,
      GravitySim.CANVAS_HEIGHT, GravitySim.MOON_RADIUS.
    replace ((680 - 0) * (800 / 800) - (400 + 280)) with 0 by field.
    replace ((300 - 0) * (600 / 600) - 300) with 0 by field.
    replace (0 * (0 * 1) + 0 * (0 * 1)) with 0 by ring.
    rewrite sqrt_0. lra. }
  split; [exact Hdrag | ].
  apply (drag_stores_polar_position rect e c Hdrag).
  - unfold rect, e, GravitySim.canvasPoint, GravitySim.EARTH_X,
      GravitySim.CANVAS_WIDTH.
    cbn [fst GravitySim.clientX GravitySim.rectLeft GravitySim.rectWidth].
    field.
  - unfold rect, e, GravitySim.canvasPoint, GravitySim.EARTH_Y,
      GravitySim.CANVAS_HEIGHT.
    cbn [snd GravitySim.clientY GravitySim.rectTop GravitySim.rectHeight].
    field.
Defined.

Section GravityControls.

Import GravitySim.

Lemma frames_while_not_running (n : nat) (c : Component) :
  state (physicsRef c) <> running -> run (repeat Frame n) c = c.
Proof.
  intros H. induction n as [ | n IH]; [reflexivity | ].
  cbn [repeat run handle]. rewrite update_idle_or_paused by exact H.
  exact IH.
Qed.

Lemma gravity_run_app (es1 es2 : list Event) (c : Component) :
  run (es1 ++ es2) c = run es2 (run es1 c).
Proof.
  revert c. induction es1 as [ | ev es1 IH]; intros c; [reflexivity | ].
  cbn [app run]. apply IH.
Qed.

Lemma moves_without_drag (moves : list (option DOMRect * MouseEvent))
    (c : Component) :
  isDraggingRef c = false ->
  run (map (fun m => MouseMove (fst m) (snd m)) moves) c = c.
Proof.
  intros H. induction moves as [ | m moves IH]; [reflexivity | ].
  cbn [map run handle]. rewrite mouse_move_without_drag by exact H.
  exact IH.
Qed.

Lemma angularStep_value (e : MassKey) (d : R) :
  0 < d ->
  angularStep e d
  = sqrt (GRAVITATIONAL_CONSTANT * MASS_MAP e / d) * 0.1 / d.
Proof.
  intros Hd. unfold angularStep, calculateOrbitalVelocity.
  destruct (Rle_dec d 0); [lra | reflexivity].
Qed.

End GravityControls.

(** X20.  Pausing loses nothing: from a running component, the pause
    button, any number of frames, and the play button give back
    exactly the component as it was. *)
Theorem pause_then_play_restores (c : GravitySim.Component) (n : nat) :
  GravitySim.simState c = GravitySim.running ->
  GravitySim.state (GravitySim.physicsRef c) = GravitySim.running ->
  GravitySim.run
    (GravitySim.ClickPause :: repeat GravitySim.Frame n
     ++ [GravitySim.ClickPlay]) c
  = c.
Proof.
  intros Hsim Hst.
  destruct c as [[st x y t d v f pts] sim drag em mm sa sp].
  cbn [GravitySim.simState GravitySim.physicsRef GravitySim.state] in *.
  subst sim st.
  cbn [GravitySim.run GravitySim.handle].
  rewrite gravity_run_app.
  rewrite frames_while_not_running by (cbn; discriminate).
  reflexivity.
Qed.

Lemma pause_then_play_restores_witness :
  let c := GravitySim.handlePlay GravitySim.initial in
  GravitySim.run
    (GravitySim.ClickPause :: repeat GravitySim.Frame 3
     ++ [GravitySim.ClickPlay]) c
  = c.
Proof.
  intros c.
  apply (pause_then_play_restores c 3); reflexivity.
Defined.

(** X21.  Pointer moves matter only during a drag: once the button is
    released (or the pointer leaves the canvas) any sequence of moves
    leaves the component as the release left it.  The full reset does
    not end a drag in progress: the next move still repositions the
    moon. *)
Theorem moves_matter_only_during_drag (c : GravitySim.Component)
    (moves : list (option GravitySim.DOMRect * GravitySim.MouseEvent))
    (rect : GravitySim.DOMRect) (e : GravitySim.MouseEvent) :
  GravitySim.run
    (GravitySim.MouseUp
     :: map (fun m => GravitySim.MouseMove (fst m) (snd m)) moves) c
  = GravitySim.handleCanvasMouseUp c
  /\ (GravitySim.isDraggingRef c = true ->
      GravitySim.moonDistance
        (GravitySim.physicsRef
           (GravitySim.run
              [GravitySim.ClickReset; GravitySim.MouseMove (Some rect) e] c))
      = Rmax GravitySim.MIN_DISTANCE
          (Rmin GravitySim.MAX_DISTANCE (GravitySim.rawDistance rect e))).
Proof.
  split.
  - cbn [GravitySim.run GravitySim.handle].
    apply moves_without_drag. reflexivity.
  - intros Hdrag. cbn [GravitySim.run GravitySim.handle].
    unfold GravitySim.handleCanvasMouseMove, GravitySim.rawDistance.
    cbn [GravitySim.handleReset GravitySim.isDraggingRef].
    rewrite Hdrag. cbn [negb].
    destruct (GravitySim.canvasPoint rect e) as [x y]. reflexivity.
Qed.

Lemma moves_matter_only_during_drag_witness :
  let c :=
    GravitySim.mkComponent GravitySim.initialPhysics GravitySim.idle true
      GravitySim.keyEarth GravitySim.key05 true true in
  let rect := GravitySim.mkDOMRect 0 0 800 600 in
  let e := GravitySim.mkMouseEvent 400 300 in
  GravitySim.moonDistance
    (GravitySim.physicsRef
       (GravitySim.run
          [GravitySim.ClickReset; GravitySim.MouseMove (Some rect) e] c))
  = Rmax GravitySim.MIN_DISTANCE
      (Rmin GravitySim.MAX_DISTANCE (GravitySim.rawDistance rect e)).
Proof.
  intros c rect e.
  apply (moves_matter_only_during_drag c [] rect e). reflexivity.
Defined.

(** X22.  A running update advances [moonAngle] by the step
    [sqrt (G * M / d) * 0.1 / d], which does not involve the moon's
    mass.  Over the distances a drag can set (150 to 400) the step is
    positive, it is no larger for a moon further out, and no smaller
    for a heavier planet. *)
Theorem closer_moon_orbits_no_slower
    (c : GravitySim.Component) (e e' : GravitySim.MassKey) (d d' : R) :
  GravitySim.state (GravitySim.physicsRef c) = GravitySim.running ->
  GravitySim.MIN_DISTANCE <= d -> d <= d' -> d' <= GravitySim.MAX_DISTANCE ->
  GravitySim.MASS_MAP e <= GravitySim.MASS_MAP e' ->
  GravitySim.moonAngle (GravitySim.physicsRef (GravitySim.update c))
  = GravitySim.moonAngle (GravitySim.physicsRef c)
    + GravitySim.angularStep (GravitySim.earthMass c)
        (GravitySim.moonDistance (GravitySim.physicsRef c))
  /\ 0 < GravitySim.angularStep e d
  /\ GravitySim.angularStep e d' <= GravitySim.angularStep e d
  /\ GravitySim.angularStep e d <= GravitySim.angularStep e' d.
Proof.
  unfold GravitySim.MIN_DISTANCE, GravitySim.MAX_DISTANCE.
  intros Hrun Hmin Hdd' _ Hee'.
  assert (Hd : 0 < d) by lra.
  pose proof (MASS_MAP_range e) as He.
  pose proof (MASS_MAP_range e') as He'.
  pose proof GRAVITATIONAL_CONSTANT_pos as HG.
  assert (HGe : 0 < GravitySim.GRAVITATIONAL_CONSTANT * GravitySim.MASS_MAP e)
    by (apply Rmult_lt_0_compat; lra).
  split.
  - unfold GravitySim.update, GravitySim.updatePhysics,
      GravitySim.angularStep.
    rewrite Hrun. reflexivity.
  - rewrite !angularStep_value by lra.
    assert (Hq : forall r, 0 < r ->
              0 < GravitySim.GRAVITATIONAL_CONSTANT
                  * GravitySim.MASS_MAP e / r).
    { intros r Hr. apply Rdiv_lt_0_compat; assumption. }
    assert (Hs : forall r, 0 < r ->
              0 < sqrt (GravitySim.GRAVITATIONAL_CONSTANT
                        * GravitySim.MASS_MAP e / r)).
    { intros r Hr. apply sqrt_lt_R0, Hq, Hr. }
    assert (Hsd := Hs d Hd). assert (Hsd' := Hs d' ltac:(lra)).
    assert (Hinv : / d' <= / d) by (apply Rinv_le_contravar; lra).
    assert (Hinvpos : 0 < / d') by (apply Rinv_0_lt_compat; lra).
    assert (Hsq : sqrt (GravitySim.GRAVITATIONAL_CONSTANT
                        * GravitySim.MASS_MAP e / d')
                  <= sqrt (GravitySim.GRAVITATIONAL_CONSTANT
                           * GravitySim.MASS_MAP e / d)).
    { apply sqrt_le_1_alt. unfold Rdiv.
      apply Rmult_le_compat_l; [lra | exact Hinv]. }
    assert (Hse : sqrt (GravitySim.GRAVITATIONAL_CONSTANT
                        * GravitySim.MASS_MAP e / d)
                  <= sqrt (GravitySim.GRAVITATIONAL_CONSTANT
                           * GravitySim.MASS_MAP e' / d)).
    { apply sqrt_le_1_alt. unfold Rdiv.
      apply Rmult_le_compat_r; [apply Rlt_le, Rinv_0_lt_compat; lra | ].
      apply Rmult_le_compat_l; lra. }
    assert (Hinvd : 0 < / d) by (apply Rinv_0_lt_compat; lra).
    unfold Rdiv at 1 3 5 7 9 in |- *.
    repeat split.
    + unfold Rdiv. apply Rmult_lt_0_compat; [ | exact Hinvd].
      apply Rmult_lt_0_compat; [exact Hsd | lra].
    + unfold Rdiv. nra.
    + unfold Rdiv. nra.
Qed.

Lemma closer_moon_orbits_no_slower_witness :
  GravitySim.angularStep GravitySim.keyEarth 400
  <= GravitySim.angularStep GravitySim.keyEarth 150.
Proof.
  apply (closer_moon_orbits_no_slower
           (GravitySim.handlePlay GravitySim.initial)
           GravitySim.keyEarth GravitySim.keyEarth 150 400);
    [reflexivity | | | | ];
    unfold GravitySim.MIN_DISTANCE, GravitySim.MAX_DISTANCE; lra.
Defined.

(** X23.  The sliders and the stored keys agree: a slider shows
    exactly the multiplier the physics uses for the stored key,
    moving it to that value stores the same key again, and any value
    other than 1, 0.5 and 1.5 is stored as the key ['2']. *)
Theorem slider_and_key_round_trip (k : GravitySim.MassKey) (val : R) :
  GravitySim.sliderKey (GravitySim.sliderValue k) = k
  /\ GravitySim.MASS_MAP k = GravitySim.sliderValue k
  /\ (val <> 1 -> val <> 0.5 -> val <> 1.5 ->
      GravitySim.sliderKey val = GravitySim.key2).
Proof.
  split; [ | split].
  - destruct k; unfold GravitySim.sliderValue, GravitySim.sliderKey;
      split_cmp; try reflexivity; lra.
  - destruct k; reflexivity.
  - intros H1 H2 H3. unfold GravitySim.sliderKey.
    split_cmp; try reflexivity; contradiction.
Qed.

Lemma slider_and_key_round_trip_witness :
  GravitySim.sliderKey 3 = GravitySim.key2.
Proof.
  apply (slider_and_key_round_trip GravitySim.key2 3); lra.
Defined.

(** X24.  Until the trail is full nothing is dropped: from an empty
    trail, after [n <= 501] running updates the trail is the list of
    all [n] moon positions so far, oldest first. *)
Theorem trail_keeps_everything_until_full
    (c : GravitySim.Component) (n : nat) :
  GravitySim.state (GravitySim.physicsRef c) = GravitySim.running ->
  GravitySim.pathPoints (GravitySim.physicsRef c) = [] ->
  (n <= S GravitySim.PATH_CAP)%nat ->
  GravitySim.pathPoints (GravitySim.physicsRef (GravitySim.updates n c))
  = GravitySim.positions n c.
Proof.
  intros Hrun Hempty Hn. rewrite trail_is_window by assumption.
  unfold GravitySim.lastn. rewrite length_positions.
  replace (n - S GravitySim.PATH_CAP)%nat with 0%nat by lia.
  reflexivity.
Qed.

Lemma trail_keeps_everything_until_full_witness :
  let c := GravitySim.handlePlay GravitySim.initial in
  GravitySim.pathPoints (GravitySim.physicsRef (GravitySim.updates 2 c))
  = GravitySim.positions 2 c.
Proof.
  intros c.
  apply (trail_keeps_everything_until_full c 2);
    [reflexivity | reflexivity | unfold GravitySim.PATH_CAP; lia].
Defined.

(** X25.  In the gravity component the [simState] the markup reads
    always equals the phase in the physics ref, whatever events have
    been delivered since mounting; in particular the pause button,
    enabled only while [simState] is ['running'], can only ever pause
    a running simulation. *)
Theorem gravity_ui_phase_in_sync (events : list GravitySim.Event) :
  let c := GravitySim.run events GravitySim.initial in
  GravitySim.simState c = GravitySim.state (GravitySim.physicsRef c)
  /\ (GravitySim.clickPause c = c
      \/ GravitySim.state (GravitySim.physicsRef c) = GravitySim.running).
Proof.
  intros c.
  destruct (gravity_run_wellFormed events) as (Hsim & _).
  fold c in Hsim. split; [exact Hsim | ].
  unfold GravitySim.clickPause. rewrite Hsim.
  destruct (GravitySim.state (GravitySim.physicsRef c));
    [left | right | left]; reflexivity.
Qed.
